(** * Satellite rasterizer of l5kit: a shallow embedding and its properties

    Source: [l5kit/l5kit/rasterization/satellite_rasterizer.py].

    The file embeds
    - [_load_image_and_metadata] (lines 14-40),
    - [SatelliteRasterizer.__init__] (lines 49-73),
    - [SatelliteRasterizer.rasterize] (lines 75-116),
    - [SatelliteRasterizer.to_rgb] (lines 118-119),
    and proves the properties of the specification about them.

    Conventions of the embedding.
    - Python exceptions are values of [exn]; a Python expression that may
      raise has type [result A = exn + A].
    - NumPy scalars are IEEE-754 values ([spec_float] of the standard
      library, with the operations at precision 24 for [float32] and 53 for
      [float64]); a NumPy vector is a [list], a matrix a list of rows, an
      image a list of rows of pixels of channel values.  The yaw, which
      reaches the collaborators as a [float32] from the agent array and as
      a [float64] from the rotation, is a [scalar]: a value with its dtype.
      The array given to [to_rgb] is a [float_array]: values with their
      dtype.  The vectors and matrices are [float64] arrays.
    - A method of the class is a computation in the monad [M], which threads
      the object [self] and keeps it when an exception escapes.
    - The functions that the module imports ([rotation33_as_yaw],
      [transform_point], [world_to_image_pixels_matrix],
      [get_sat_image_crop_scaled], and NumPy's [linalg.inv] and
      [linalg.norm]) are parameters of the development: pure functions of
      their arguments that may raise. *)

From Stdlib Require Import String Ascii ZArith List Bool Lia.
From Stdlib Require Import Floats.SpecFloat Strings.Byte.
Import ListNotations.

Set Implicit Arguments.
Open Scope Z_scope.

(* ===================================================================== *)
(** * Python: exceptions, results, indexing *)
(* ===================================================================== *)

Module Py.

(** The exception classes that the module or its collaborators raise. *)
Inductive exn : Type :=
| IndexError
| TypeError
| ValueError
| FileNotFoundError
| JSONDecodeError
| LinAlgError
| CvError.

Abbreviation result := (sum exn).

Class Monad (m : Type -> Type) : Type :=
  { ret : forall {A : Type}, A -> m A;
    bind : forall {A B : Type}, m A -> (A -> m B) -> m B }.

#[global] Instance Monad_result : Monad result :=
  { ret := fun A (a : A) => inr a;
    bind := fun A B (r : result A) (k : A -> result B) =>
              match r with
              | inl e => inl e
              | inr a => k a
              end }.

Definition raise {A : Type} (e : exn) : result A := inl e.

(** [l[i]] for a sequence [l] and an integer [i]: a negative index counts
    from the end, an index out of range raises [IndexError]. *)
Definition getitem {A : Type} (l : list A) (i : Z) : result A :=
  let n := Z.of_nat (length l) in
  let j := if i <? 0 then i + n else i in
  if (j <? 0) || (n <=? j) then raise IndexError
  else match nth_error l (Z.to_nat j) with
       | Some a => inr a
       | None => raise IndexError
       end.

(** [np.append(arr, v)] for a vector [arr] and a scalar [v]. *)
Definition np_append {A : Type} (arr : list A) (v : A) : list A := arr ++ [v].

End Py.
Export Py.

Declare Scope py_scope.
Delimit Scope py_scope with py.
Notation "x <- c ;; k" := (bind c (fun x => k))
  (at level 61, c at next level, right associativity) : py_scope.
Notation "' p <- c ;; k" := (bind c (fun x => match x with p => k end))
  (at level 61, p pattern, c at next level, right associativity) : py_scope.
Open Scope py_scope.

(* ===================================================================== *)
(** * IEEE-754 scalars: float32, float64, uint8 *)
(* ===================================================================== *)

Module IEEE.

Definition float : Type := spec_float.

(** ** binary64 ([np.float64], Python [float]) *)
Definition f64_of_Z (z : Z) : float := binary_normalize 53 1024 z 0 false.
Definition f64_half : float := binary_normalize 53 1024 1 (-1) false.
Definition f64_mul : float -> float -> float := SFmul 53 1024.
Definition f64_div : float -> float -> float := SFdiv 53 1024.
Definition f64_add : float -> float -> float := SFadd 53 1024.
Definition f64_neg : float -> float := SFopp.

(** ** binary32 ([np.float32]) *)
Definition f32_of_Z (z : Z) : float := binary_normalize 24 128 z 0 false.
Definition f32_half : float := binary_normalize 24 128 1 (-1) false.
Definition f32_mul : float -> float -> float := SFmul 24 128.
Definition f32_div : float -> float -> float := SFdiv 24 128.
Definition f32_255 : float := f32_of_Z 255.

(** ** uint8 *)
Definition u8_to_Z (b : byte) : Z := Z.of_N (Byte.to_N b).

(** An integer stored into a [uint8]: the low eight bits. *)
Definition u8_of_Z (z : Z) : byte :=
  match Byte.of_N (Z.to_N (z mod 256)) with
  | Some b => b
  | None => x00
  end.

(** [astype(np.float32)] of a [uint8]: exact. *)
Definition f32_of_u8 (b : byte) : float := f32_of_Z (u8_to_Z b).

(** The integer part of a float, rounding toward zero (the C conversion
    of a float to an integer type).  The conversion of a NaN or an
    infinity is not defined by C; it is 0 here. *)
Definition trunc (x : float) : Z :=
  match x with
  | S754_finite s m e =>
      let a := match e with
               | Zneg p => Z.shiftr (Zpos m) (Zpos p)
               | _ => Z.shiftl (Zpos m) e
               end in
      if s then - a else a
  | _ => 0
  end.

(** [astype(np.uint8)] of a float: truncation toward zero; a value
    outside 0..255 is not defined by C and wraps here. *)
Definition u8_of_float (x : float) : byte := u8_of_Z (trunc x).

(** The nearest integer, ties to the even one ([round], [np.round]). *)
Definition round_half_even (x : float) : Z :=
  match x with
  | S754_finite s m e =>
      let a :=
        match e with
        | Zneg p =>
            let q := Z.shiftr (Zpos m) (Zpos p) in
            let r := Zpos m - Z.shiftl q (Zpos p) in
            let h := Z.shiftl 1 (Zpos p - 1) in
            match r ?= h with
            | Lt => q
            | Gt => q + 1
            | Eq => if Z.even q then q else q + 1
            end
        | _ => Z.shiftl (Zpos m) e
        end in
      if s then - a else a
  | _ => 0
  end.

(** [0 <= x <= 1]. *)
Definition in_unit_interval (x : float) : bool :=
  SFleb (S754_zero false) x && SFleb x (f32_of_Z 1).

(** ** The floating-point dtypes of NumPy *)
Inductive float_dtype : Type :=
| Float16
| Float32
| Float64
| Extended80   (* [np.longdouble] of x86: 64 bits of mantissa *)
| Quad128.     (* [np.longdouble] as IEEE binary128 *)

(** The bits of the mantissa, the implicit one included. *)
Definition dtype_prec (dt : float_dtype) : Z :=
  match dt with
  | Float16 => 11
  | Float32 => 24
  | Float64 => 53
  | Extended80 => 64
  | Quad128 => 113
  end.

(** The exponent of the infinities. *)
Definition dtype_emax (dt : float_dtype) : Z :=
  match dt with
  | Float16 => 16
  | Float32 => 128
  | Float64 => 1024
  | Extended80 => 16384
  | Quad128 => 16384
  end.

Definition np_of_Z (dt : float_dtype) (z : Z) : float :=
  binary_normalize (dtype_prec dt) (dtype_emax dt) z 0 false.

Definition np_mul (dt : float_dtype) : float -> float -> float :=
  SFmul (dtype_prec dt) (dtype_emax dt).

(** The value is a value of the dtype. *)
Definition has_dtype (dt : float_dtype) (x : float) : bool :=
  valid_binary (dtype_prec dt) (dtype_emax dt) x.

(** [0 <= x <= 1], for a value of the dtype. *)
Definition unit_interval (dt : float_dtype) (x : float) : bool :=
  SFleb (S754_zero false) x && SFleb x (np_of_Z dt 1).

(** A floating-point scalar of NumPy or of Python, which is a [float64]:
    its dtype and its value. *)
Record scalar : Type :=
  { scalar_dtype : float_dtype;
    scalar_value : float }.

Definition float32_scalar (x : float) : scalar :=
  {| scalar_dtype := Float32; scalar_value := x |}.

Definition float64_scalar (x : float) : scalar :=
  {| scalar_dtype := Float64; scalar_value := x |}.

(** [- x]: the opposite, in the dtype of [x]. *)
Definition scalar_neg (x : scalar) : scalar :=
  {| scalar_dtype := scalar_dtype x; scalar_value := SFopp (scalar_value x) |}.

(** The value in [float64]; the conversion from a narrower dtype is
    exact. *)
Definition to_f64 (x : float) : float :=
  match x with
  | S754_finite s m e =>
      binary_normalize 53 1024 (if s then Zneg m else Zpos m) e false
  | _ => x
  end.

(** [x == y] for two scalars: the comparison of the values, whatever the
    dtypes are. *)
Definition scalar_eqb (x y : scalar) : bool :=
  SFeqb (to_f64 (scalar_value x)) (to_f64 (scalar_value y)).

(** The record after [k] shifts of the integer [M]: the quotient, and no
    bit set behind it when the division is exact. *)
Definition shifted (M k : Z) (mrs : shr_record) : Prop :=
  0 <= shr_m mrs /\
  shr_m mrs = M / 2 ^ k /\
  (M mod 2 ^ k = 0 -> shr_r mrs = false /\ shr_s mrs = false).

End IEEE.
Export IEEE.

(** NumPy arrays of the shapes the module handles. *)
Definition vec : Type := list float.
Definition matrix : Type := list (list float).
Definition image (A : Type) : Type := list (list (list A)).
Definition u8image : Type := image byte.
Definition f32image : Type := image float.

(** An array of a floating-point dtype: its dtype and its values. *)
Record float_array : Type :=
  { dtype : float_dtype;
    data : image float }.

(** The [float32] array of the given values. *)
Definition float32_array (im : f32image) : float_array :=
  {| dtype := Float32; data := im |}.

Definition map_image {A B : Type} (f : A -> B) (im : image A) : image B :=
  map (map (map f)) im.

Definition Forall_image {A : Type} (P : A -> Prop) (im : image A) : Prop :=
  Forall (Forall (Forall P)) im.

(** The shape of an image: for each row, the number of channels of each of
    its pixels. *)
Definition shape {A : Type} (im : image A) : list (list nat) :=
  map (map (@List.length A)) im.

(** The 256 values of a [uint8], in increasing order. *)
Definition all_u8 : list byte :=
  map (fun n => u8_of_Z (Z.of_nat n)) (seq 0 256).

(** Each 8-bit value with the value that the normalisation of
    [rasterize] gives it. *)
Definition normalized_table : list (byte * float) :=
  map (fun v => (v, f32_div (f32_of_u8 v) f32_255)) all_u8.

(* ===================================================================== *)
(** * The asset loader: [_load_image_and_metadata] *)
(* ===================================================================== *)

Module Loader.

(** [s.rfind(c)]: the highest index of [c] in [s], or [-1]. *)
Fixpoint rfind_from (c : ascii) (s : string) (i last : Z) : Z :=
  match s with
  | EmptyString => last
  | String a s' => rfind_from c s' (i + 1) (if Ascii.eqb a c then i else last)
  end.

Definition rfind (c : ascii) (s : string) : Z := rfind_from c s 0 (-1).

(** [s[a:b]] and [s[a:]] for [0 <= a]. *)
Definition slice (s : string) (a b : Z) : string :=
  substring (Z.to_nat a) (Z.to_nat (b - a)) s.

Definition slice_from (s : string) (a : Z) : string :=
  substring (Z.to_nat a) (String.length s) s.

(** The loop of [genericpath._splitext], which skips the leading dots of
    the file name; [remaining] is [dotIndex - filenameIndex]. *)
Fixpoint splitext_loop (p : string) (dotIndex : Z) (remaining : nat)
  : string * string :=
  match remaining with
  | O => (p, EmptyString)
  | S r =>
      let filenameIndex := dotIndex - Z.of_nat remaining in
      if negb (String.eqb (slice p filenameIndex (filenameIndex + 1)) ".")
      then (slice p 0 dotIndex, slice_from p dotIndex)
      else splitext_loop p dotIndex r
  end.

(** [os.path.splitext] (posix). *)
Definition splitext (p : string) : string * string :=
  let sepIndex := rfind "/" p in
  let dotIndex := rfind "." p in
  if sepIndex <? dotIndex
  then splitext_loop p dotIndex (Z.to_nat (dotIndex - (sepIndex + 1)))
  else (p, EmptyString).

(** [DataManager]: the interface of [l5kit.data]; [require] resolves a key
    to a local path and raises when it cannot. *)
Record DataManager : Type :=
  { require : string -> result string }.

Section LoadImage.

(** The parsed metadata (a JSON object). *)
Variable dict : Type.
(** [cv2.imread]: the BGR image, or [None] when the file cannot be read or
    decoded. *)
Variable cv2_imread : string -> option u8image.
(** [open(path, "r")]: the text of the file. *)
Variable py_open : string -> result string.
(** [json.load]. *)
Variable json_load : string -> result dict.

(** [x[..., ::-1]]: the last axis reversed; [None] is not subscriptable. *)
Definition subscript_reverse_channels (x : option u8image)
  : result (option u8image) :=
  match x with
  | None => raise TypeError
  | Some im => ret (Some (map (map (@rev byte)) im))
  end.

Definition _load_image_and_metadata (image_key : string)
  (data_manager : DataManager) : result (u8image * dict) :=
  let image_metadata_key := (fst (splitext image_key) ++ ".json")%string in
  image_path <- require data_manager image_key ;;
  image_metadata_path <- require data_manager image_metadata_key ;;
  image <- subscript_reverse_channels (cv2_imread image_path) ;;
  match image with
  | None => raise FileNotFoundError
  | Some image =>
      f <- py_open image_metadata_path ;;
      metadata <- json_load f ;;
      ret (image, metadata)
  end.

End LoadImage.

(** A store for running the loader: the keys it holds, under [/data/]. *)
Definition local_data_manager (keys : list string) : DataManager :=
  {| require := fun key =>
       if existsb (String.eqb key) keys
       then inr ("/data/" ++ key)%string
       else raise FileNotFoundError |}.

(** Every file is an undecodable image. *)
Definition imread_corrupt (path : string) : option u8image := None.

(** Every file is a 1x1 image of the BGR pixel (1, 2, 3). *)
Definition imread_pixel (path : string) : option u8image :=
  Some [[[x01; x02; x03]]].

Definition open_any (path : string) : result string := inr "{}"%string.

Definition json_load_ok (text : string) : result (list (string * string)) :=
  inr [].

Definition json_load_invalid (text : string) : result (list (string * string)) :=
  raise JSONDecodeError.

End Loader.

(* ===================================================================== *)
(** * The data model of the rasterizer *)
(* ===================================================================== *)

(** A record of the frame array: the fields [rasterize] reads. *)
Record Frame : Type :=
  { ego_translation : vec;
    ego_rotation : matrix }.

(** A record of the agent array: the fields [rasterize] reads.  The yaw
    is the scalar that the array stores, with the dtype of the array. *)
Record Agent : Type :=
  { centroid : vec;
    yaw : scalar }.

(** The attributes of a [SatelliteRasterizer]. *)
Record SatelliteRasterizer : Type :=
  { raster_size : Z * Z;
    pixel_size : vec;
    ego_center : vec;
    map_im : u8image;
    map_to_sat : matrix;
    interpolation : Z;
    map_pixel_scale : float }.

(** [cv2.INTER_LINEAR]. *)
Definition INTER_LINEAR : Z := 1.

(** ** Methods: computations over [self]

    A method receives the object and returns its result, or the exception
    it raised, together with the object as the method left it. *)
Record M (A : Type) : Type :=
  mkM { run : SatelliteRasterizer -> result A * SatelliteRasterizer }.

#[global] Instance Monad_M : Monad M :=
  { ret := fun A (a : A) => mkM (fun self => (inr a, self));
    bind := fun A B (c : M A) (k : A -> M B) =>
              mkM (fun self =>
                     match run c self with
                     | (inl e, self') => (inl e, self')
                     | (inr a, self') => run (k a) self'
                     end) }.

(** An expression that does not involve [self]. *)
Definition lift {A : Type} (r : result A) : M A :=
  mkM (fun self => (r, self)).

(** [self.f]. *)
Definition getattr {A : Type} (f : SatelliteRasterizer -> A) : M A :=
  mkM (fun self => (inr (f self), self)).

(** [self.f = v], by the update [upd] of the record. *)
Definition setattr (upd : SatelliteRasterizer -> SatelliteRasterizer) : M unit :=
  mkM (fun self => (inr tt, upd self)).

(** A method that leaves every attribute as it found it. *)
Definition read_only {A : Type} (c : M A) : Prop :=
  forall self, snd (run c self) = self.

(* ===================================================================== *)
(** * Stand-ins for the collaborators

    Small executable collaborators, used to run the model on concrete
    inputs.  The properties below hold for every collaborator; these are
    one choice. *)
(* ===================================================================== *)

Module Demo.

Definition f64_zero : float := S754_zero false.
Definition f64_one : float := f64_of_Z 1.

Fixpoint dot (row v : vec) : result float :=
  match row, v with
  | [], [] => ret f64_zero
  | a :: row', x :: v' =>
      s <- dot row' v' ;;
      ret (f64_add (f64_mul a x) s)
  | _, _ => raise ValueError
  end.

Fixpoint matmul (m : matrix) (v : vec) : result vec :=
  match m with
  | [] => ret []
  | row :: m' =>
      y <- dot row v ;;
      ys <- matmul m' v ;;
      ret (y :: ys)
  end.

(** The point extended by 1, multiplied by the matrix, cut back to the
    dimension of the point. *)
Definition transform_point (point : vec) (transf_matrix : matrix) : result vec :=
  ys <- matmul transf_matrix (point ++ [f64_one]) ;;
  ret (firstn (List.length point) ys).

(** A translation of the plane by the opposite of the pose's position. *)
Definition world_to_image_pixels_matrix (image_shape : Z * Z)
  (pixel_size_m ego_translation_m : vec) (ego_yaw_rad : scalar)
  (ego_center_in_image_ratio : vec) : result matrix :=
  tx <- getitem ego_translation_m 0 ;;
  ty <- getitem ego_translation_m 1 ;;
  ret [[f64_one; f64_zero; f64_neg tx];
       [f64_zero; f64_one; f64_neg ty];
       [f64_zero; f64_zero; f64_one]].

(** The inverse of a translation of the plane. *)
Definition linalg_inv (m : matrix) : result matrix :=
  match m with
  | [[a; b; tx]; [c; d; ty]; last] =>
      ret [[a; b; f64_neg tx]; [c; d; f64_neg ty]; last]
  | _ => raise LinAlgError
  end.

(** The entry (1, 0) of the rotation: the yaw of a small rotation. *)
Definition rotation33_as_yaw (rotation : matrix) : result scalar :=
  r1 <- getitem rotation 1 ;;
  r10 <- getitem r1 0 ;;
  ret (float64_scalar r10).

(** The Euclidean norm. *)
Definition linalg_norm (v : vec) : float :=
  SFsqrt 53 1024 (fold_right (fun x s => f64_add (f64_mul x x) s) f64_zero v).

(** The top-left corner of the image, of the size asked for. *)
Definition get_sat_image_crop_scaled (sat_image : u8image) (crop_size : Z * Z)
  (sat_pixel_translation : vec) (yaw : scalar) (pixel_size : vec)
  (sat_pixel_scale : float) (interpolation : Z) : result u8image :=
  match sat_image with
  | [] => raise CvError
  | _ => ret (firstn (Z.to_nat (snd crop_size))
                (map (firstn (Z.to_nat (fst crop_size))) sat_image))
  end.

Definition identity44 : matrix :=
  [[f64_one; f64_zero; f64_zero; f64_zero];
   [f64_zero; f64_one; f64_zero; f64_zero];
   [f64_zero; f64_zero; f64_one; f64_zero];
   [f64_zero; f64_zero; f64_zero; f64_one]].

Definition identity33 : matrix :=
  [[f64_one; f64_zero; f64_zero];
   [f64_zero; f64_one; f64_zero];
   [f64_zero; f64_zero; f64_one]].

(** A 2x3 RGB image. *)
Definition sat_image : u8image :=
  [[[x00; x80; xff]; [x01; x02; x03]; [x10; x20; x30]];
   [[xfe; x7f; x40]; [x0a; x0b; x0c]; [xc8; x64; x32]]].

(** One frame: the ego at (100, 200, 10), not rotated. *)
Definition frame0 : Frame :=
  {| ego_translation := [f64_of_Z 100; f64_of_Z 200; f64_of_Z 10];
     ego_rotation := identity33 |}.


(** An agent elsewhere. *)
Definition agent1 : Agent :=
  {| centroid := [f64_of_Z 103; f64_of_Z 198];
     yaw := float32_scalar f32_half |}.

(** A frame of the ego at (100, 200, 10) from whose rotation the stand-in
    extracts the yaw 2.46875, a [float64]. *)
Definition frame_turned : Frame :=
  {| ego_translation := [f64_of_Z 100; f64_of_Z 200; f64_of_Z 10];
     ego_rotation :=
       [[f64_one; f64_zero; f64_zero];
        [binary_normalize 53 1024 79 (-5) false; f64_one; f64_zero];
        [f64_zero; f64_zero; f64_one]] |}.

(** An agent at the position of that ego, with the yaw 2.46875 as the
    agent array stores it: a [float32]. *)
Definition agent_turned : Agent :=
  {| centroid := [f64_of_Z 100; f64_of_Z 200];
     yaw := float32_scalar (binary_normalize 24 128 79 (-5) false) |}.


(** A rasterizer over the 2x3 image, with the identity as calibration. *)
Definition engine : SatelliteRasterizer :=
  {| raster_size := (2, 2);
     pixel_size := [f64_half; f64_half];
     ego_center := [f64_mul f64_half f64_half; f64_half];
     map_im := sat_image;
     map_to_sat := identity44;
     interpolation := INTER_LINEAR;
     map_pixel_scale := f64_one |}.

End Demo.

(* ===================================================================== *)
(** * The class [SatelliteRasterizer] *)
(* ===================================================================== *)

Section Rasterizer.

(** ** The collaborators *)

(** [l5kit.geometry.rotation33_as_yaw]. *)
Variable rotation33_as_yaw : matrix -> result scalar.
(** [l5kit.geometry.world_to_image_pixels_matrix], with its arguments in
    the order raster size, pixel size, translation, yaw, ego center. *)
Variable world_to_image_pixels_matrix :
  Z * Z -> vec -> vec -> scalar -> vec -> result matrix.
(** [l5kit.geometry.transform_point]. *)
Variable transform_point : vec -> matrix -> result vec.
(** [np.linalg.inv]. *)
Variable linalg_inv : matrix -> result matrix.
(** [np.linalg.norm] of a vector. *)
Variable linalg_norm : vec -> float.
(** [get_sat_image_crop_scaled], with its arguments in the order image,
    crop size, centre, yaw, pixel size, pixel scale, interpolation. *)
Variable get_sat_image_crop_scaled :
  u8image -> Z * Z -> vec -> scalar -> vec -> float -> Z -> result u8image.

(** ** [__init__] (lines 49-73)

    [interpolation = None] stands for the argument left out. *)
Definition __init__ (raster_size : Z * Z) (pixel_size ego_center : vec)
  (map_im : u8image) (map_to_sat : matrix) (interpolation : option Z)
  : result SatelliteRasterizer :=
  let interpolation :=
    match interpolation with
    | Some i => i
    | None => INTER_LINEAR
    end in
  row0 <- getitem map_to_sat 0 ;;
  row1 <- getitem map_to_sat 1 ;;
  let map_pixel_scale :=
    f64_div
      (f64_add (f64_div (f64_of_Z 1) (linalg_norm (firstn 3 row0)))
               (f64_div (f64_of_Z 1) (linalg_norm (firstn 3 row1))))
      (f64_of_Z 2) in
  ret {| raster_size := raster_size;
         pixel_size := pixel_size;
         ego_center := ego_center;
         map_im := map_im;
         map_to_sat := map_to_sat;
         interpolation := interpolation;
         map_pixel_scale := map_pixel_scale |}.

(** ** [rasterize] (lines 75-116) *)
Definition rasterize (history_frames : list Frame)
  (history_agents : list (list Agent)) (agent : option Agent) : M f32image :=
  ' (ego_translation, ego_yaw) <-
    match agent with
    | None =>
        frame <- lift (getitem history_frames 0) ;;
        let ego_translation := ego_translation frame in
        frame <- lift (getitem history_frames 0) ;;
        ego_yaw <- lift (rotation33_as_yaw (ego_rotation frame)) ;;
        ret (ego_translation, ego_yaw)
    | Some agent =>
        frame <- lift (getitem history_frames 0) ;;
        z <- lift (getitem (ego_translation frame) (-1)) ;;
        let ego_translation := np_append (centroid agent) z in
        let ego_yaw := yaw agent in
        ret (ego_translation, ego_yaw)
    end ;;
  self_raster_size <- getattr raster_size ;;
  self_pixel_size <- getattr pixel_size ;;
  self_ego_center <- getattr ego_center ;;
  world_to_image_space <-
    lift (world_to_image_pixels_matrix self_raster_size self_pixel_size
            ego_translation ego_yaw self_ego_center) ;;
  self_raster_size <- getattr raster_size ;;
  let center_pixel :=
    [f64_mul (f64_of_Z (fst self_raster_size)) f64_half;
     f64_mul (f64_of_Z (snd self_raster_size)) f64_half] in
  inverse <- lift (linalg_inv world_to_image_space) ;;
  world_translation <- lift (transform_point center_pixel inverse) ;;
  z <- lift (getitem ego_translation 2) ;;
  self_map_to_sat <- getattr map_to_sat ;;
  sat_translation <-
    lift (transform_point (np_append world_translation z) self_map_to_sat) ;;
  self_map_im <- getattr map_im ;;
  self_raster_size <- getattr raster_size ;;
  self_pixel_size <- getattr pixel_size ;;
  self_map_pixel_scale <- getattr map_pixel_scale ;;
  self_interpolation <- getattr interpolation ;;
  sat_im <-
    lift (get_sat_image_crop_scaled self_map_im self_raster_size
            sat_translation (scalar_neg ego_yaw) self_pixel_size
            self_map_pixel_scale self_interpolation) ;;
  let sat_im := rev sat_im in
  ret (map_image (fun v => f32_div (f32_of_u8 v) f32_255) sat_im).

(** ** [to_rgb] (lines 118-119); the keyword arguments are not read.

    [in_im * 255] is computed in the dtype of [in_im]. *)
Definition to_rgb (in_im : float_array) : M u8image :=
  ret (map_image
         (fun x =>
            u8_of_float (np_mul (dtype in_im) x (np_of_Z (dtype in_im) 255)))
         (data in_im)).

(** ** Calls of the methods, one after the other *)
Inductive call : Type :=
| Call_rasterize (history_frames : list Frame)
    (history_agents : list (list Agent)) (agent : option Agent)
| Call_to_rgb (in_im : float_array).

(** The object after a call, whether it returned or raised. *)
Definition after_call (self : SatelliteRasterizer) (c : call)
  : SatelliteRasterizer :=
  match c with
  | Call_rasterize hf ha ag => snd (run (rasterize hf ha ag) self)
  | Call_to_rgb im => snd (run (to_rgb im) self)
  end.

Definition after_calls (self : SatelliteRasterizer) (cs : list call)
  : SatelliteRasterizer :=
  fold_left after_call cs self.

(** ** The words of the specification *)

(** The pose to crop around: of the ego of the most recent frame, which is
    the first of the history, or of the agent at the ego's elevation. *)
Inductive selects_pose : list Frame -> option Agent -> vec -> scalar -> Prop :=
| pose_of_ego : forall frame older ego_yaw,
    rotation33_as_yaw (ego_rotation frame) = inr ego_yaw ->
    selects_pose (frame :: older) None (ego_translation frame) ego_yaw
| pose_of_agent : forall frame older agent elevation,
    getitem (ego_translation frame) (-1) = inr elevation ->
    selects_pose (frame :: older) (Some agent)
      (centroid agent ++ [elevation]) (yaw agent).

(** The centre of the raster, in pixels. *)
Definition raster_center (self : SatelliteRasterizer) : vec :=
  [f64_mul (f64_of_Z (fst (raster_size self))) f64_half;
   f64_mul (f64_of_Z (snd (raster_size self))) f64_half].

(** The vertical flip: the rows in the opposite order. *)
Definition flip_rows {A : Type} (im : image A) : image A := rev im.

(** The normalisation of an 8-bit image to a float image. *)
Definition normalize (im : u8image) : f32image :=
  map_image (fun v => f32_div (f32_of_u8 v) f32_255) im.

(** [round(x * 255)], as an 8-bit image. *)
Definition round_to_u8 (in_im : float_array) : u8image :=
  map_image
    (fun x =>
       u8_of_Z (round_half_even
                  (np_mul (dtype in_im) x (np_of_Z (dtype in_im) 255))))
    (data in_im).

(** [x * 255] cut to its integer part, as an 8-bit image. *)
Definition truncate_to_u8 (in_im : float_array) : u8image :=
  map_image
    (fun x =>
       u8_of_Z (trunc (np_mul (dtype in_im) x (np_of_Z (dtype in_im) 255))))
    (data in_im).

(* ===================================================================== *)
(** * Properties *)
(* ===================================================================== *)

(** ** Indexing *)

Lemma getitem_0_cons (A : Type) (a : A) (l : list A) :
  getitem (a :: l) 0 = inr a.
Proof. reflexivity. Qed.

Lemma getitem_0_inv (A : Type) (l : list A) (a : A) :
  getitem l 0 = inr a -> exists older, l = a :: older.
Proof.
  destruct l as [|b older]; [discriminate|].
  rewrite getitem_0_cons. intros H. injection H as ->. now exists older.
Qed.

Lemma getitem_nil (A : Type) (i : Z) : getitem (@nil A) i = inl IndexError.
Proof.
  unfold getitem. simpl.
  destruct (Z.ltb_spec i 0) as [Hi|Hi].
  - rewrite Z.add_0_r. destruct (Z.ltb_spec i 0); [reflexivity|lia].
  - destruct (Z.leb_spec 0 i); [|lia].
    rewrite orb_true_r. reflexivity.
Qed.

(** ** Methods that only read *)

Lemma read_only_ret (A : Type) (a : A) : read_only (ret a).
Proof. intros self. reflexivity. Qed.

Lemma read_only_lift (A : Type) (r : result A) : read_only (lift r).
Proof. intros self. reflexivity. Qed.

Lemma read_only_getattr (A : Type) (f : SatelliteRasterizer -> A) :
  read_only (getattr f).
Proof. intros self. reflexivity. Qed.

Lemma read_only_bind (A B : Type) (c : M A) (k : A -> M B) :
  read_only c -> (forall a, read_only (k a)) -> read_only (bind c k).
Proof.
  intros Hc Hk self. simpl.
  specialize (Hc self).
  destruct (run c self) as [[e|a] self']; simpl in *; subst self'.
  - reflexivity.
  - apply Hk.
Qed.

Lemma read_only_rasterize hf ha ag : read_only (rasterize hf ha ag).
Proof.
  unfold rasterize.
  apply read_only_bind.
  - destruct ag as [agent|];
      repeat (apply read_only_bind; [apply read_only_lift|intros ?]);
      apply read_only_ret.
  - intros [ego_translation ego_yaw].
    repeat (apply read_only_bind;
            [first [apply read_only_lift | apply read_only_getattr]|intros ?]).
    apply read_only_ret.
Qed.

Lemma read_only_to_rgb in_im : read_only (to_rgb in_im).
Proof. apply read_only_ret. Qed.

Lemma after_call_same self c : after_call self c = self.
Proof.
  destruct c as [hf ha ag|im]; unfold after_call.
  - apply read_only_rasterize.
  - apply read_only_to_rgb.
Qed.

Lemma after_calls_same cs : forall self, after_calls self cs = self.
Proof.
  unfold after_calls.
  induction cs as [|c cs IH]; intros self; simpl.
  - reflexivity.
  - rewrite after_call_same. apply IH.
Qed.

(** An assignment to an attribute is not read-only: the predicate
    separates the methods that write from those that do not. *)
Lemma setattr_writes :
  ~ read_only (setattr (fun self =>
       {| raster_size := raster_size self; pixel_size := pixel_size self;
          ego_center := ego_center self; map_im := map_im self;
          map_to_sat := map_to_sat self;
          interpolation := interpolation self + 1;
          map_pixel_scale := map_pixel_scale self |})).
Proof.
  intros H.
  specialize (H {| raster_size := (1, 1); pixel_size := []; ego_center := [];
                   map_im := []; map_to_sat := []; interpolation := 0;
                   map_pixel_scale := S754_zero false |}).
  simpl in H. discriminate H.
Qed.

(** ** The run of [rasterize], step by step *)

Ltac step_in H :=
  match type of H with
  | context [match ?r with inl _ => _ | inr _ => _ end] =>
      let E := fresh "E" in
      destruct r eqn:E; simpl in H; try discriminate H
  end.

(** A call that returns went through every step of the pipeline. *)
Lemma rasterize_returns_inv self hf ha ag out :
  fst (run (rasterize hf ha ag) self) = inr out ->
  exists pose_translation pose_yaw world_to_image inverse world_xy z center crop,
    selects_pose hf ag pose_translation pose_yaw /\
    world_to_image_pixels_matrix (raster_size self) (pixel_size self)
      pose_translation pose_yaw (ego_center self) = inr world_to_image /\
    linalg_inv world_to_image = inr inverse /\
    transform_point (raster_center self) inverse = inr world_xy /\
    getitem pose_translation 2 = inr z /\
    transform_point (world_xy ++ [z]) (map_to_sat self) = inr center /\
    get_sat_image_crop_scaled (map_im self) (raster_size self) center
      (scalar_neg pose_yaw) (pixel_size self) (map_pixel_scale self)
      (interpolation self) = inr crop /\
    out = normalize (flip_rows crop).
Proof.
  unfold rasterize. simpl. intros H.
  destruct ag as [agent|]; simpl in H; repeat step_in H;
    injection H as <-;
    match goal with
    | E : getitem hf 0 = inr ?f |- _ =>
        destruct (getitem_0_inv _ E) as [older ->]
    end.
  all: do 8 eexists;
    (split; [constructor; eassumption|]);
    repeat (split; [eassumption|]);
    reflexivity.
Qed.

(** A call whose pose is selected and whose crop centre is computed ends
    as the crop primitive does, at these arguments. *)
Lemma rasterize_reaches_crop self hf ha ag
  pose_translation pose_yaw world_to_image inverse world_xy z center :
  selects_pose hf ag pose_translation pose_yaw ->
  world_to_image_pixels_matrix (raster_size self) (pixel_size self)
    pose_translation pose_yaw (ego_center self) = inr world_to_image ->
  linalg_inv world_to_image = inr inverse ->
  transform_point (raster_center self) inverse = inr world_xy ->
  getitem pose_translation 2 = inr z ->
  transform_point (world_xy ++ [z]) (map_to_sat self) = inr center ->
  run (rasterize hf ha ag) self =
  (match get_sat_image_crop_scaled (map_im self) (raster_size self) center
           (scalar_neg pose_yaw) (pixel_size self) (map_pixel_scale self)
           (interpolation self) with
   | inl e => inl e
   | inr crop => inr (normalize (flip_rows crop))
   end, self).
Proof.
  intros Hpose Hw Hi Hxy Hz Hc.
  unfold rasterize, raster_center, np_append in *.
  destruct Hpose as [frame older ego_yaw Hyaw|frame older agent elevation Hel];
    simpl; rewrite ?Hyaw, ?Hel; simpl;
    rewrite Hw; simpl; rewrite Hi; simpl; rewrite Hxy; simpl;
    rewrite Hz; simpl; rewrite Hc; simpl;
    destruct get_sat_image_crop_scaled; reflexivity.
Qed.

(** ** Rounding to a binary format keeps an integer bound

    The product of a [float32] in [0, 1] by 255 is at most 255, so its
    integer part is an 8-bit value. *)

Lemma digits2_pos_bounds (p : positive) :
  2 ^ (Zpos (digits2_pos p) - 1) <= Zpos p < 2 ^ Zpos (digits2_pos p).
Proof.
  induction p as [p IH|p IH|]; simpl digits2_pos;
    rewrite ?Pos2Z.inj_succ; [| |simpl; lia].
  all: set (d := Z.pos (digits2_pos p)) in *;
    assert (Hd : 1 <= d) by (subst d; lia);
    assert (H2 : 2 ^ d = 2 * 2 ^ (d - 1))
      by (rewrite <- Z.pow_succ_r by lia; f_equal; lia);
    replace (Z.succ d - 1) with d by lia;
    rewrite Z.pow_succ_r by lia.
  - change (Z.pos p~1) with (2 * Z.pos p + 1). lia.
  - change (Z.pos p~0) with (2 * Z.pos p). lia.
Qed.

Lemma Zdigits2_le (m k : Z) : 0 <= m -> 0 <= k -> m < 2 ^ k -> Zdigits2 m <= k.
Proof.
  intros Hm Hk Hlt. destruct m as [|p|p]; simpl; [lia| |lia].
  destruct (digits2_pos_bounds p) as [Hlo _].
  destruct (Z.le_gt_cases (Zpos (digits2_pos p)) k) as [|Hgt]; [assumption|].
  assert (2 ^ k <= 2 ^ (Zpos (digits2_pos p) - 1)) by (apply Z.pow_le_mono_r; lia).
  lia.
Qed.

Lemma mod_pow2_succ (M k : Z) :
  0 <= k -> M mod 2 ^ (k + 1) = 0 ->
  M mod 2 ^ k = 0 /\ (M / 2 ^ k) mod 2 = 0.
Proof.
  intros Hk H.
  assert (H2k : 0 < 2 ^ k) by (apply Z.pow_pos_nonneg; lia).
  rewrite Z.pow_add_r, Z.pow_1_r in H by lia.
  rewrite Z.rem_mul_r in H by lia.
  pose proof (Z.mod_pos_bound M (2 ^ k) H2k).
  pose proof (Z.mod_pos_bound (M / 2 ^ k) 2 ltac:(lia)).
  nia.
Qed.

Lemma shifted_shr_1 (M k : Z) (mrs : shr_record) :
  0 <= k -> shifted M k mrs -> shifted M (k + 1) (shr_1 mrs).
Proof.
  intros Hk (Hpos & Hm & Hex).
  assert (H2k : 0 < 2 ^ k) by (apply Z.pow_pos_nonneg; lia).
  assert (Hdiv : M / 2 ^ (k + 1) = shr_m mrs / 2).
  { rewrite Z.pow_add_r, Z.pow_1_r by lia.
    rewrite <- Z.div_div by lia. now rewrite Hm. }
  assert (Hmod : M mod 2 ^ (k + 1) = 0 ->
                 shr_r mrs = false /\ shr_s mrs = false /\ shr_m mrs mod 2 = 0).
  { intros Hz. destruct (@mod_pow2_succ M k Hk Hz) as [Hz' Heven].
    rewrite <- Hm in Heven. destruct (Hex Hz'). now repeat split. }
  destruct mrs as [m r s]. simpl in *.
  unfold shifted.
  destruct m as [|[p|p|]|p]; simpl; rewrite Hdiv.
  - (* 0 *)
    split; [lia|]. split; [reflexivity|].
    intros Hz. destruct (Hmod Hz) as (-> & -> & _). now split.
  - (* 2p + 1 *)
    split; [lia|]. split.
    + change (Z.pos p~1) with (2 * Z.pos p + 1).
      apply Z.div_unique with 1; lia.
    + intros Hz. destruct (Hmod Hz) as (_ & _ & Heven).
      rewrite Pos2Z.inj_xI, Z.add_comm, Z.mul_comm, Z.mod_add in Heven by lia.
      discriminate Heven.
  - (* 2p *)
    split; [lia|]. split.
    + change (Z.pos p~0) with (2 * Z.pos p).
      apply Z.div_unique with 0; lia.
    + intros Hz. destruct (Hmod Hz) as (-> & -> & _). now split.
  - (* 1 *)
    split; [lia|]. split; [reflexivity|].
    intros Hz. destruct (Hmod Hz) as (_ & _ & Heven). discriminate Heven.
  - lia.
Qed.

Lemma shifted_iter_pos (M : Z) (p : positive) :
  forall k mrs, 0 <= k -> shifted M k mrs ->
                shifted M (k + Zpos p) (iter_pos shr_1 p mrs).
Proof.
  induction p as [p IH|p IH|]; intros k mrs Hk H; simpl iter_pos.
  - replace (k + Z.pos p~1) with (k + 1 + Z.pos p + Z.pos p) by lia.
    apply IH; [lia|]. apply IH; [lia|]. now apply shifted_shr_1.
  - replace (k + Z.pos p~0) with (k + Z.pos p + Z.pos p) by lia.
    apply IH; [lia|]. now apply IH.
  - now apply shifted_shr_1.
Qed.

Section RoundBound.

Variables prec emax : Z.
Hypothesis prec_pos : 0 < prec.
Hypothesis emin_neg : emin prec emax <= 0.

(** A mantissa at most [C * 2 ^ (- e)], for an integer [C] below
    [2 ^ prec], stays so when it is shifted to its format, also after the
    rounding to nearest. *)
Lemma shr_fexp_bound (m e C : Z) :
  0 <= m -> e <= 0 -> 0 <= C < 2 ^ prec -> m <= C * 2 ^ (- e) ->
  forall mrs e', shr_fexp prec emax m e loc_Exact = (mrs, e') ->
  e' <= 0 /\
  0 <= shr_m mrs <= round_nearest_even (shr_m mrs) (loc_of_shr_record mrs) /\
  round_nearest_even (shr_m mrs) (loc_of_shr_record mrs) <= C * 2 ^ (- e').
Proof.
  intros Hm He HC Hle mrs e'.
  assert (H2e : 0 < 2 ^ (- e)) by (apply Z.pow_pos_nonneg; lia).
  assert (Hd : Zdigits2 m + e <= prec).
  { assert (Zdigits2 m <= prec - e); [|lia].
    apply Zdigits2_le; [lia|lia|].
    replace (prec - e) with (prec + - e) by lia.
    rewrite Z.pow_add_r by lia. nia. }
  assert (Hfe : fexp prec emax (Zdigits2 m + e) <= 0) by (unfold fexp; lia).
  unfold shr_fexp, shr. simpl shr_record_of_loc.
  destruct (fexp prec emax (Zdigits2 m + e) - e) as [|p|p] eqn:Hn.
  - intros [= <- <-]. simpl. lia.
  - intros [= <- <-].
    assert (Hsh : shifted m (0 + Z.pos p)
                    (iter_pos shr_1 p {| shr_m := m; shr_r := false; shr_s := false |})).
    { apply shifted_iter_pos; [lia|]. unfold shifted. simpl.
      rewrite Z.div_1_r. repeat split; lia. }
    destruct Hsh as (Hpos & Hq & Hex). simpl in Hq.
    set (mrs := iter_pos shr_1 p _) in *.
    assert (H2p : 0 < 2 ^ Z.pos p) by (apply Z.pow_pos_nonneg; lia).
    assert (HT : C * 2 ^ (- e) = C * 2 ^ (- (e + Z.pos p)) * 2 ^ Z.pos p).
    { rewrite <- Z.mul_assoc, <- Z.pow_add_r by lia. do 2 f_equal. lia. }
    set (T := C * 2 ^ (- (e + Z.pos p))) in *.
    assert (Hfloor : shr_m mrs <= T).
    { rewrite Hq. apply Z.div_le_upper_bound; lia. }
    assert (Hceil : (shr_r mrs = true \/ shr_s mrs = true) -> shr_m mrs + 1 <= T).
    { intros Hbits.
      assert (m mod 2 ^ Z.pos p <> 0) as Hne.
      { intros Hz. destruct (Hex Hz) as [Hr Hs].
        destruct Hbits as [Hb|Hb]; congruence. }
      assert (m <> T * 2 ^ Z.pos p) as Hneq.
      { intros ->. apply Hne. apply Z.mod_mul. lia. }
      assert (shr_m mrs < T); [|lia].
      rewrite Hq. apply Z.div_lt_upper_bound; lia. }
    split; [lia|].
    destruct mrs as [q r s]. simpl in *.
    destruct r, s; simpl; try destruct (Z.even q); lia.
  - intros [= <- <-]. simpl. lia.
Qed.

End RoundBound.

Lemma trunc_binary_round_aux_bound (prec emax m e C : Z) :
  0 < prec -> emin prec emax <= 0 ->
  0 <= m -> e <= 0 -> 0 <= C < 2 ^ prec -> m <= C * 2 ^ (- e) ->
  0 <= trunc (binary_round_aux prec emax false m e loc_Exact) <= C.
Proof.
  intros Hprec Hemin Hm He HC Hle.
  unfold binary_round_aux.
  destruct (shr_fexp prec emax m e loc_Exact) as [mrs' e'] eqn:H1.
  destruct (@shr_fexp_bound prec emax Hprec Hemin m e C Hm He HC Hle _ _ H1)
    as (He' & Hm' & Hle').
  destruct (shr_fexp prec emax
              (round_nearest_even (shr_m mrs') (loc_of_shr_record mrs')) e'
              loc_Exact) as [mrs'' e''] eqn:H2.
  assert (Hr' : 0 <= round_nearest_even (shr_m mrs') (loc_of_shr_record mrs'))
    by lia.
  destruct (@shr_fexp_bound prec emax Hprec Hemin _ e' C
              Hr' He' HC Hle' _ _ H2) as (He'' & Hm'' & Hr'').
  assert (Hle'' : shr_m mrs'' <= C * 2 ^ (- e'')) by lia.
  destruct (shr_m mrs'') as [|m2|m2]; simpl; try lia.
  destruct (e'' <=? emax - prec); simpl; [|lia].
  destruct e'' as [|q|q]; try lia.
  - simpl in Hle''. rewrite Z.shiftl_0_r. lia.
  - rewrite Z.shiftr_div_pow2 by lia.
    assert (0 < 2 ^ Z.pos q) by (apply Z.pow_pos_nonneg; lia).
    split; [apply Z.div_pos; lia|].
    apply Z.div_le_upper_bound; [lia|].
    change (- Z.neg q) with (Z.pos q) in Hle''. lia.
Qed.

(** In a binary format of at least eight bits, the product by 255 of a
    value in [0, 1] is at most 255. *)
Lemma trunc_mul_255_bound_format (prec emax : Z) (one_m m255 : positive)
  (x : float) :
  8 <= prec -> emin prec emax <= 0 ->
  Z.pos one_m = 2 ^ (prec - 1) -> Z.pos m255 = 255 * 2 ^ (prec - 8) ->
  valid_binary prec emax x = true ->
  SFleb (S754_zero false) x = true ->
  SFleb x (S754_finite false one_m (1 - prec)) = true ->
  0 <= trunc (SFmul prec emax x (S754_finite false m255 (8 - prec))) <= 255.
Proof.
  intros Hprec Hemin Hone H255 Hvalid H0 H1.
  destruct x as [s|[|]| |[|] m e];
    [simpl; lia|discriminate H0|discriminate H1|discriminate H0
    |discriminate H0|].
  unfold SFmul. simpl xorb.
  (* the mantissa is below [2 ^ prec] *)
  unfold valid_binary, bounded in Hvalid.
  apply andb_true_iff in Hvalid. destruct Hvalid as [Hcan _].
  unfold canonical_mantissa, fexp in Hcan. apply Z.eqb_eq in Hcan.
  destruct (digits2_pos_bounds m) as [_ Hm].
  assert (Hmp : Z.pos m < 2 ^ prec).
  { eapply Z.lt_le_trans; [exact Hm|]. apply Z.pow_le_mono_r; lia. }
  (* the value is at most 1 *)
  assert (Hval : e <= 1 - prec /\ Z.pos m <= 2 ^ (- e)).
  { unfold SFleb, SFcompare in H1.
    destruct (e ?= 1 - prec) eqn:Hcmp; try discriminate H1.
    - apply Z.compare_eq in Hcmp. split; [lia|].
      replace (- e) with (prec - 1) by lia. rewrite <- Hone.
      destruct (Pos.compare_cont Eq m one_m) eqn:Hc; try discriminate H1.
      + apply Pos.compare_eq in Hc. subst m. lia.
      + apply Pos.compare_lt_iff in Hc. apply Pos2Z.pos_lt_pos in Hc.
        apply Z.lt_le_incl. exact Hc.
    - rewrite Z.compare_lt_iff in Hcmp. split; [lia|].
      apply Z.lt_le_incl. eapply Z.lt_le_trans; [exact Hmp|].
      apply Z.pow_le_mono_r; lia. }
  destruct Hval as [He Hle].
  apply (@trunc_binary_round_aux_bound prec emax
           (Z.pos (m * m255)) (e + (8 - prec)) 255).
  - lia.
  - exact Hemin.
  - lia.
  - lia.
  - split; [lia|].
    apply Z.lt_le_trans with (2 ^ 8); [reflexivity|].
    apply Z.pow_le_mono_r; lia.
  - replace (- (e + (8 - prec))) with (- e + (prec - 8)) by lia.
    rewrite Z.pow_add_r by lia.
    rewrite Pos2Z.inj_mul, H255.
    assert (0 < 2 ^ (prec - 8)) by (apply Z.pow_pos_nonneg; lia).
    nia.
Qed.

(** In each floating-point dtype, the product by 255 of a value in [0, 1]
    has an integer part between 0 and 255. *)
Lemma trunc_mul_255_bound (dt : float_dtype) (x : float) :
  has_dtype dt x = true -> unit_interval dt x = true ->
  0 <= trunc (np_mul dt x (np_of_Z dt 255)) <= 255.
Proof.
  intros Hvalid Hunit.
  apply andb_true_iff in Hunit. destruct Hunit as [H0 H1].
  destruct dt.
  - change (np_of_Z Float16 255) with (S754_finite false 2040 (8 - 11)).
    change (np_of_Z Float16 1) with (S754_finite false 1024 (1 - 11)) in H1.
    apply (@trunc_mul_255_bound_format 11 16 1024 2040 x);
      try assumption; try reflexivity; try discriminate; lia.
  - change (np_of_Z Float32 255) with (S754_finite false 16711680 (8 - 24)).
    change (np_of_Z Float32 1) with (S754_finite false 8388608 (1 - 24)) in H1.
    apply (@trunc_mul_255_bound_format 24 128 8388608 16711680 x);
      try assumption; try reflexivity; try discriminate; lia.
  - change (np_of_Z Float64 255)
      with (S754_finite false 8972014882652160 (8 - 53)).
    change (np_of_Z Float64 1)
      with (S754_finite false 4503599627370496 (1 - 53)) in H1.
    apply (@trunc_mul_255_bound_format 53 1024
             4503599627370496 8972014882652160 x);
      try assumption; try reflexivity; try discriminate; lia.
  - change (np_of_Z Extended80 255)
      with (S754_finite false 18374686479671623680 (8 - 64)).
    change (np_of_Z Extended80 1)
      with (S754_finite false 9223372036854775808 (1 - 64)) in H1.
    apply (@trunc_mul_255_bound_format 64 16384
             9223372036854775808 18374686479671623680 x);
      try assumption; try reflexivity; try discriminate; lia.
  - change (np_of_Z Quad128 255)
      with (S754_finite false 10344028897862351916213098155868160 (8 - 113)).
    change (np_of_Z Quad128 1)
      with (S754_finite false 5192296858534827628530496329220096 (1 - 113))
      in H1.
    apply (@trunc_mul_255_bound_format 113 16384
             5192296858534827628530496329220096
             10344028897862351916213098155868160 x);
      try assumption; try reflexivity; try discriminate; lia.
Qed.

Lemma u8_to_of_Z (z : Z) : 0 <= z <= 255 -> u8_to_Z (u8_of_Z z) = z.
Proof.
  intros Hz. unfold u8_to_Z, u8_of_Z.
  rewrite Z.mod_small by lia.
  destruct (Byte.of_N (Z.to_N z)) as [b|] eqn:Hb.
  - rewrite (@Byte.to_of_N _ _ Hb). lia.
  - apply Byte.of_N_None_iff in Hb. lia.
Qed.
(** ** The pose (C2) *)

(** C2. A call of [rasterize] that returns took its pose from the first
    frame of the history, the most recent one: without an agent, the ego
    translation of the frame and the yaw that [rotation33_as_yaw] extracts
    from its rotation; with an agent, the centroid of the agent followed by
    the last component of the ego translation, which is the z-coordinate
    of the pose when the centroid has two components, and the [yaw] field
    of the agent as it is.  The world-to-raster transform is built from
    this pose. *)
Theorem rasterize_pose self hf ha ag out :
  fst (run (rasterize hf ha ag) self) = inr out ->
  exists frame older pose_translation pose_yaw world_to_image,
    hf = frame :: older /\
    match ag with
    | None =>
        pose_translation = ego_translation frame /\
        rotation33_as_yaw (ego_rotation frame) = inr pose_yaw
    | Some agent =>
        exists elevation,
          getitem (ego_translation frame) (-1) = inr elevation /\
          pose_translation = centroid agent ++ [elevation] /\
          pose_yaw = yaw agent /\
          (List.length (centroid agent) = 2%nat ->
           getitem pose_translation 2 = inr elevation)
    end /\
    world_to_image_pixels_matrix (raster_size self) (pixel_size self)
      pose_translation pose_yaw (ego_center self) = inr world_to_image.
Proof.
  intros H.
  destruct (rasterize_returns_inv _ _ _ _ H)
    as (t & y & w & _ & _ & _ & _ & _ & Hpose & Hw & _).
  destruct Hpose as [frame older ego_yaw Hyaw|frame older agent elevation Hel].
  - exists frame, older, (ego_translation frame), ego_yaw, w.
    repeat split; assumption.
  - exists frame, older, (centroid agent ++ [elevation]), (yaw agent), w.
    split; [reflexivity|]. split; [|assumption].
    exists elevation. repeat split; try assumption.
    intros Hlen.
    destruct (centroid agent) as [|x [|y' [|? ?]]]; try discriminate Hlen.
    reflexivity.
Qed.

(** ** The centre of the crop (C1) *)

(** C1. A call of [rasterize] that returns computed the centre of the crop
    in this way: the world-to-raster transform of the pose is inverted, the
    inverse is applied to the centre pixel of the raster,
    [(raster_size.x, raster_size.y) * (0.5, 0.5)], which gives a world
    point of the plane; the component of index 2 of the pose's translation
    is appended to it; the 3D point is mapped through [map_to_sat].  The
    crop primitive received this centre. *)
Theorem rasterize_crop_center self hf ha ag out :
  fst (run (rasterize hf ha ag) self) = inr out ->
  exists pose_translation pose_yaw world_to_image inverse world_xy z center,
    selects_pose hf ag pose_translation pose_yaw /\
    world_to_image_pixels_matrix (raster_size self) (pixel_size self)
      pose_translation pose_yaw (ego_center self) = inr world_to_image /\
    linalg_inv world_to_image = inr inverse /\
    transform_point
      [f64_mul (f64_of_Z (fst (raster_size self))) f64_half;
       f64_mul (f64_of_Z (snd (raster_size self))) f64_half]
      inverse = inr world_xy /\
    getitem pose_translation 2 = inr z /\
    transform_point (world_xy ++ [z]) (map_to_sat self) = inr center /\
    exists rotation crop,
      get_sat_image_crop_scaled (map_im self) (raster_size self) center
        rotation (pixel_size self) (map_pixel_scale self)
        (interpolation self) = inr crop /\
      out = normalize (flip_rows crop).
Proof.
  intros H.
  destruct (rasterize_returns_inv _ _ _ _ H)
    as (t & y & w & i & xy & z & c & crop & Hpose & Hw & Hi & Hxy & Hz & Hc
        & Hcrop & Hout).
  exists t, y, w, i, xy, z, c.
  repeat (split; [assumption|]).
  now exists (scalar_neg y), crop.
Qed.

(** ** The call of the crop primitive (C4) *)

(** C4. Once the pose is selected and the centre of the crop computed, the
    call of [rasterize] ends as the crop primitive does when it is given
    the satellite image, the raster size, the centre, the opposite of the
    yaw of the pose, [pixel_size], the cached [map_pixel_scale] and the
    interpolation mode: it raises what the primitive raises, and returns
    the crop of the primitive, flipped and normalised. *)
Theorem rasterize_crop_arguments self hf ha ag
  pose_translation pose_yaw world_to_image inverse world_xy z center :
  selects_pose hf ag pose_translation pose_yaw ->
  world_to_image_pixels_matrix (raster_size self) (pixel_size self)
    pose_translation pose_yaw (ego_center self) = inr world_to_image ->
  linalg_inv world_to_image = inr inverse ->
  transform_point (raster_center self) inverse = inr world_xy ->
  getitem pose_translation 2 = inr z ->
  transform_point (world_xy ++ [z]) (map_to_sat self) = inr center ->
  fst (run (rasterize hf ha ag) self) =
  match get_sat_image_crop_scaled (map_im self) (raster_size self) center
          (scalar_neg pose_yaw) (pixel_size self) (map_pixel_scale self)
          (interpolation self) with
  | inl e => inl e
  | inr crop => inr (normalize (flip_rows crop))
  end.
Proof.
  intros Hpose Hw Hi Hxy Hz Hc.
  rewrite (rasterize_reaches_crop ha Hpose Hw Hi Hxy Hz Hc).
  reflexivity.
Qed.

(** ** After the crop (C5) *)

Lemma Forall_image_map (A B : Type) (f : A -> B) (P : B -> Prop) :
  (forall a, P (f a)) -> forall im, Forall_image P (map_image f im).
Proof.
  intros HP im. unfold Forall_image, map_image.
  apply Forall_map, Forall_forall. intros row _.
  apply Forall_map, Forall_forall. intros pixel _.
  apply Forall_map, Forall_forall. intros a _.
  apply HP.
Qed.

Lemma map_image_compose (A B C : Type) (f : A -> B) (g : B -> C) im :
  map_image g (map_image f im) = map_image (fun a => g (f a)) im.
Proof.
  unfold map_image. rewrite map_map.
  apply map_ext. intros row. rewrite map_map.
  apply map_ext. intros pixel. apply map_map.
Qed.

Lemma map_image_id (A : Type) (f : A -> A) :
  (forall a, f a = a) -> forall im, map_image f im = im.
Proof.
  intros Hf im. unfold map_image.
  rewrite <- (map_id im) at 2. apply map_ext. intros row.
  rewrite <- (map_id row) at 2. apply map_ext. intros pixel.
  rewrite <- (map_id pixel) at 2. apply map_ext. exact Hf.
Qed.

(** An 8-bit value divided by 255 in [float32] lies in [0, 1]. *)
Lemma normalized_in_unit_interval (v : byte) :
  in_unit_interval (f32_div (f32_of_u8 v) f32_255) = true.
Proof. destruct v; vm_compute; reflexivity. Qed.

(** Multiplied by 255 in [float32] and truncated, it is the 8-bit value
    again. *)
Lemma denormalized (v : byte) :
  u8_of_float (f32_mul (f32_div (f32_of_u8 v) f32_255) f32_255) = v.
Proof. destruct v; vm_compute; reflexivity. Qed.

(** C5. A call of [rasterize] that returns obtained an image from the crop
    primitive, reversed the order of its rows, then converted every channel
    value to [float32] and divided it by 255, and did nothing else: the
    image returned is that one, and every value of it lies in [0, 1]. *)
Theorem rasterize_flips_then_normalizes self hf ha ag out :
  fst (run (rasterize hf ha ag) self) = inr out ->
  exists center rotation crop,
    get_sat_image_crop_scaled (map_im self) (raster_size self) center
      rotation (pixel_size self) (map_pixel_scale self)
      (interpolation self) = inr crop /\
    out = map_image (fun v => f32_div (f32_of_u8 v) f32_255) (rev crop) /\
    Forall_image (fun x => in_unit_interval x = true) out.
Proof.
  intros H.
  destruct (rasterize_returns_inv _ _ _ _ H)
    as (_ & y & _ & _ & _ & _ & c & crop & _ & _ & _ & _ & _ & _ & Hcrop & ->).
  exists c, (scalar_neg y), crop.
  split; [exact Hcrop|]. split; [reflexivity|].
  apply Forall_image_map. exact normalized_in_unit_interval.
Qed.

(** ** The attributes (C9, C3) *)

(** C9. A call of [rasterize] leaves the object as it found it, whether it
    returns or raises: [raster_size], [pixel_size], [ego_center], [map_im],
    [map_to_sat], [interpolation] and [map_pixel_scale] are the same after
    the call as before it. *)
Theorem rasterize_mutates_nothing self hf ha ag :
  let self' := snd (run (rasterize hf ha ag) self) in
  self' = self /\
  raster_size self' = raster_size self /\
  pixel_size self' = pixel_size self /\
  ego_center self' = ego_center self /\
  map_im self' = map_im self /\
  map_to_sat self' = map_to_sat self /\
  interpolation self' = interpolation self /\
  map_pixel_scale self' = map_pixel_scale self.
Proof.
  intros self'. subst self'.
  rewrite (read_only_rasterize hf ha ag self).
  repeat split.
Qed.

(** C3. The constructor computes [map_pixel_scale] as the mean of the
    inverses of the norms of the first three entries of the first two rows
    of [map_to_sat], and stores [map_to_sat] with it; no sequence of calls
    of the methods changes either afterwards. *)
Theorem init_map_pixel_scale
  size pixel center im to_sat interp self :
  __init__ size pixel center im to_sat interp = inr self ->
  exists row0 row1,
    getitem to_sat 0 = inr row0 /\
    getitem to_sat 1 = inr row1 /\
    map_to_sat self = to_sat /\
    map_pixel_scale self =
      f64_div
        (f64_add (f64_div (f64_of_Z 1) (linalg_norm (firstn 3 row0)))
                 (f64_div (f64_of_Z 1) (linalg_norm (firstn 3 row1))))
        (f64_of_Z 2) /\
    forall calls,
      map_pixel_scale (after_calls self calls) = map_pixel_scale self /\
      map_to_sat (after_calls self calls) = to_sat.
Proof.
  unfold __init__. simpl. intros H.
  destruct (getitem to_sat 0) as [e|row0] eqn:E0; [discriminate H|].
  destruct (getitem to_sat 1) as [e|row1] eqn:E1; [discriminate H|].
  injection H as <-. simpl.
  exists row0, row1. repeat split; try reflexivity.
  all: rewrite after_calls_same; reflexivity.
Qed.

(** ** Independence of the agents of the history (C10) *)

(** C10. [rasterize] does not read [history_agents]: two calls that differ
    in this argument only end in the same way, with the same image or the
    same exception, and leave the same object. *)
Theorem rasterize_ignores_history_agents self hf ha1 ha2 ag :
  run (rasterize hf ha1 ag) self = run (rasterize hf ha2 ag) self.
Proof.
  unfold rasterize. destruct ag as [agent|]; reflexivity.
Qed.

(** ** An agent at the pose of the ego (C7) *)




(** ** [to_rgb] (C6) *)

Lemma map_image_ext_in (A B : Type) (P : A -> Prop) (f g : A -> B) :
  (forall a, P a -> f a = g a) ->
  forall im, Forall_image P im -> map_image f im = map_image g im.
Proof.
  intros Hfg im Him. unfold map_image, Forall_image in *.
  apply map_ext_in. intros row Hrow.
  rewrite Forall_forall in Him. specialize (Him row Hrow).
  apply map_ext_in. intros pixel Hpixel.
  rewrite Forall_forall in Him. specialize (Him pixel Hpixel).
  apply map_ext_in. intros a Ha.
  rewrite Forall_forall in Him. apply Hfg, Him, Ha.
Qed.

(** [to_rgb] undoes the normalisation of [rasterize], whose image is a
    [float32] array. *)
Lemma to_rgb_normalize self (crop : u8image) :
  fst (run (to_rgb (float32_array (normalize crop))) self) = inr crop.
Proof.
  unfold to_rgb, normalize, float32_array. simpl.
  rewrite map_image_compose.
  f_equal. apply map_image_id. exact denormalized.
Qed.

(** C6, as amended. On a float image with values in [0, 1], of whichever
    floating-point dtype (every value is a value of the dtype of the image
    between 0 and 1), [to_rgb] returns, value by value, the product by
    255 computed in the dtype of the image and cut to its integer part,
    which is an 8-bit value: it truncates, it does not round.  On an image
    that the normalisation step of [rasterize] produced it gives the 8-bit
    image back: it is the inverse of that step. *)
Theorem to_rgb_truncates self in_im :
  Forall_image
    (fun x => has_dtype (dtype in_im) x = true /\
              unit_interval (dtype in_im) x = true)
    (data in_im) ->
  fst (run (to_rgb in_im) self) = inr (truncate_to_u8 in_im) /\
  map_image u8_to_Z (truncate_to_u8 in_im)
  = map_image
      (fun x => trunc (np_mul (dtype in_im) x (np_of_Z (dtype in_im) 255)))
      (data in_im) /\
  forall crop : u8image,
    fst (run (to_rgb (float32_array (normalize crop))) self) = inr crop.
Proof.
  intros Hunit.
  split; [reflexivity|]. split; [|apply to_rgb_normalize].
  unfold truncate_to_u8. rewrite map_image_compose.
  apply map_image_ext_in with (2 := Hunit).
  intros x [Hvalid Hx].
  apply u8_to_of_Z, trunc_mul_255_bound; assumption.
Qed.

(* ===================================================================== *)
(** * Further properties of the class *)
(* ===================================================================== *)

(** ** Indexing, again *)

Lemma getitem_of_nat (A : Type) (l : list A) (i : nat) :
  getitem l (Z.of_nat i) =
  match nth_error l i with
  | Some a => inr a
  | None => inl IndexError
  end.
Proof.
  unfold getitem.
  destruct (Z.ltb_spec (Z.of_nat i) 0) as [Hneg|_]; [lia|].
  destruct (Z.leb_spec (Z.of_nat (List.length l)) (Z.of_nat i)) as [Hout|Hin].
  - rewrite orb_true_r.
    rewrite (proj2 (nth_error_None l i)) by lia. reflexivity.
  - destruct (Z.ltb_spec (Z.of_nat i) 0); [lia|]. simpl.
    rewrite Nat2Z.id. destruct (nth_error l i); reflexivity.
Qed.

Lemma getitem_raises (A : Type) (l : list A) (i : Z) (e : exn) :
  getitem l i = inl e -> e = IndexError.
Proof.
  unfold getitem, raise.
  destruct (_ || _); [now intros [= <-]|].
  destruct (nth_error _ _); [discriminate|now intros [= <-]].
Qed.

Lemma getitem_2_short (A : Type) (l : list A) :
  (List.length l < 3)%nat -> getitem l 2 = inl IndexError.
Proof.
  intros Hlen. change 2 with (Z.of_nat 2). rewrite getitem_of_nat.
  rewrite (proj2 (nth_error_None l 2)) by lia. reflexivity.
Qed.

(** ** Construction *)

(** The constructor checks one thing only, and by accident: that the
    calibration has two rows to take the norms of.  With fewer rows it
    raises [IndexError]; otherwise it succeeds, whatever the sizes and the
    image are, stores its arguments as they are given, and takes
    [cv2.INTER_LINEAR] when no interpolation is given. *)
Theorem init_checks_rows_only size pixel center im to_sat interp :
  match __init__ size pixel center im to_sat interp with
  | inl e => e = IndexError /\ (List.length to_sat < 2)%nat
  | inr self =>
      (2 <= List.length to_sat)%nat /\
      raster_size self = size /\ pixel_size self = pixel /\
      ego_center self = center /\ map_im self = im /\
      map_to_sat self = to_sat /\
      interpolation self = match interp with
                           | Some i => i
                           | None => INTER_LINEAR
                           end
  end.
Proof.
  unfold __init__. simpl.
  change 0 with (Z.of_nat 0). change 1 with (Z.of_nat 1).
  rewrite !getitem_of_nat.
  destruct to_sat as [|row0 [|row1 rest]]; simpl.
  - split; [reflexivity|lia].
  - split; [reflexivity|lia].
  - repeat split. lia.
Qed.

(** The pixel scale reads the calibration through the first three entries
    of its first two rows: the translation column and the other rows do
    not count. *)
Theorem init_scale_reads_rotation_block
  size1 pixel1 center1 im1 interp1 size2 pixel2 center2 im2 interp2
  to_sat1 to_sat2 self1 self2 :
  __init__ size1 pixel1 center1 im1 to_sat1 interp1 = inr self1 ->
  __init__ size2 pixel2 center2 im2 to_sat2 interp2 = inr self2 ->
  map (firstn 3) (firstn 2 to_sat1) = map (firstn 3) (firstn 2 to_sat2) ->
  map_pixel_scale self1 = map_pixel_scale self2.
Proof.
  unfold __init__. simpl.
  change 0 with (Z.of_nat 0). change 1 with (Z.of_nat 1).
  rewrite !getitem_of_nat.
  destruct to_sat1 as [|a0 [|a1 rest1]]; simpl; try discriminate.
  destruct to_sat2 as [|b0 [|b1 rest2]]; simpl; try discriminate.
  intros [= <-] [= <-] Hblock. simpl.
  injection Hblock as -> ->. reflexivity.
Qed.

(** A calibration whose first two rows have a zero norm is accepted: the
    division by zero raises nothing and the pixel scale is infinite. *)
Theorem init_degenerate_calibration
  size pixel center im interp row0 row1 rest :
  linalg_norm (firstn 3 row0) = S754_zero false ->
  linalg_norm (firstn 3 row1) = S754_zero false ->
  exists self,
    __init__ size pixel center im (row0 :: row1 :: rest) interp = inr self /\
    map_pixel_scale self = S754_infinity false.
Proof.
  intros H0 H1. unfold __init__.
  change (getitem (row0 :: row1 :: rest) 0)
    with (getitem (row0 :: row1 :: rest) (Z.of_nat 0)).
  change (getitem (row0 :: row1 :: rest) 1)
    with (getitem (row0 :: row1 :: rest) (Z.of_nat 1)).
  rewrite !getitem_of_nat.
  cbn [nth_error bind ret Monad_result].
  rewrite H0, H1.
  eexists. split; reflexivity.
Qed.

(** ** Failures of [rasterize] *)

(** Without a frame in the history there is no pose: the call raises
    [IndexError], with or without an agent, before any collaborator is
    consulted. *)
Theorem rasterize_empty_history self ha ag :
  run (rasterize [] ha ag) self = (inl IndexError, self).
Proof. destruct ag as [agent|]; reflexivity. Qed.

Ltac step_raise H :=
  match type of H with
  | context [match ?r with inl _ => _ | inr _ => _ end] =>
      let E := fresh "E" in
      destruct r eqn:E; simpl in H
  end.

Ltac step_outer H :=
  match type of H with
  | fst (match ?r with inl _ => _ | inr _ => _ end) = _ =>
      let E := fresh "E" in
      destruct r eqn:E; simpl in H
  end.

(** [rasterize] catches nothing and wraps nothing.  It raises an exception
    exactly when one of its steps raises it and every step before returned:
    the exception is the one of the first step that raised, among the
    indexing of the history, the extraction of the
    yaw or the indexing of the ego translation, then, for the pose these
    gave, the transform builder, the inversion, the point transform at the
    raster centre, the indexing of the translation, the point transform
    through [map_to_sat], and the crop primitive at the centre found and
    the opposite of the yaw. *)
Theorem rasterize_raises_inv self hf ha ag e :
  fst (run (rasterize hf ha ag) self) = inl e <->
  getitem hf 0 = inl e \/
  exists frame,
    getitem hf 0 = inr frame /\
    ((ag = None /\ rotation33_as_yaw (ego_rotation frame) = inl e) \/
     ((exists agent, ag = Some agent) /\
      getitem (ego_translation frame) (-1) = inl e) \/
     exists pose_translation pose_yaw,
       selects_pose hf ag pose_translation pose_yaw /\
       (world_to_image_pixels_matrix (raster_size self) (pixel_size self)
          pose_translation pose_yaw (ego_center self) = inl e \/
        exists world_to_image,
          world_to_image_pixels_matrix (raster_size self) (pixel_size self)
            pose_translation pose_yaw (ego_center self)
          = inr world_to_image /\
          (linalg_inv world_to_image = inl e \/
           exists inverse,
             linalg_inv world_to_image = inr inverse /\
             (transform_point (raster_center self) inverse = inl e \/
              exists world_xy,
                transform_point (raster_center self) inverse = inr world_xy /\
                (getitem pose_translation 2 = inl e \/
                 exists z,
                   getitem pose_translation 2 = inr z /\
                   (transform_point (world_xy ++ [z]) (map_to_sat self)
                    = inl e \/
                    exists center,
                      transform_point (world_xy ++ [z]) (map_to_sat self)
                      = inr center /\
                      get_sat_image_crop_scaled (map_im self)
                        (raster_size self) center (scalar_neg pose_yaw)
                        (pixel_size self) (map_pixel_scale self)
                        (interpolation self) = inl e)))))).
Proof.
  split.
  {
  unfold rasterize, raster_center, np_append. intros H.
  destruct hf as [|frame older].
  - left. destruct ag as [agent|]; simpl in H; injection H as <-; reflexivity.
  - right. exists frame. split; [reflexivity|].
    destruct ag as [agent|]; simpl in H.
    + step_raise H.
      { injection H as <-. right. left.
        split; [now exists agent|first [reflexivity|exact E]]. }
      right. right.
      exists (centroid agent ++ [f]), (yaw agent).
      split; [constructor; first [reflexivity|exact E]|].
      repeat (step_outer H;
              [injection H as <-; left; first [reflexivity|exact E]
              |right; eexists; split; [first [reflexivity|exact E]|]]).
      step_outer H; [injection H as <-; reflexivity|discriminate H].
    + step_raise H.
      { injection H as <-. left.
        split; [reflexivity|first [reflexivity|exact E]]. }
      right. right.
      exists (ego_translation frame), s.
      split; [constructor; first [reflexivity|exact E]|].
      repeat (step_outer H;
              [injection H as <-; left; first [reflexivity|exact E]
              |right; eexists; split; [first [reflexivity|exact E]|]]).
      step_outer H; [injection H as <-; reflexivity|discriminate H].
  }
  unfold rasterize, raster_center, np_append.
  intros [Hhistory|(frame & Hframe & Hstep)].
  - destruct hf as [|frame older]; [|discriminate Hhistory].
    injection Hhistory as <-. destruct ag; reflexivity.
  - destruct (getitem_0_inv _ Hframe) as [older ->].
    destruct Hstep as [[-> Hyaw]|[[[agent ->] Hel]|Hpose]].
    + simpl. rewrite Hyaw. reflexivity.
    + simpl. rewrite Hel. reflexivity.
    + destruct Hpose as (t & y & Hselect & Hrest).
      inversion Hselect as [f o ey Hyaw|f o agent el Hel]; subst;
        simpl; rewrite ?Hyaw, ?Hel; simpl;
        repeat match goal with
               | H : _ \/ _ |- _ => destruct H as [H|H]
               | H : exists _, _ |- _ => destruct H as [? H]
               | H : _ /\ _ |- _ => destruct H as [? H]
               end;
        repeat match goal with
               | E : ?t = _ |- context [?t] => rewrite E; simpl
               end;
        reflexivity.
Qed.

(** A transform that cannot be inverted stops the call: the exception of
    the inversion leaves [rasterize] as it is, and the crop primitive has
    no part in the outcome. *)
Theorem rasterize_singular_transform self hf ha ag
  pose_translation pose_yaw world_to_image e :
  selects_pose hf ag pose_translation pose_yaw ->
  world_to_image_pixels_matrix (raster_size self) (pixel_size self)
    pose_translation pose_yaw (ego_center self) = inr world_to_image ->
  linalg_inv world_to_image = inl e ->
  run (rasterize hf ha ag) self = (inl e, self).
Proof.
  intros Hpose Hw Hi.
  unfold rasterize, np_append in *.
  destruct Hpose as [frame older ego_yaw Hyaw|frame older agent elevation Hel];
    simpl; rewrite ?Hyaw, ?Hel; simpl;
    rewrite Hw; simpl; rewrite Hi; reflexivity.
Qed.

(** A pose whose translation has fewer than three components (an agent
    with a centroid of one component, a frame with a translation of the
    plane) has no elevation to give: the call raises [IndexError], once the
    raster centre has been taken back to the world. *)
Theorem rasterize_pose_without_elevation self hf ha ag
  pose_translation pose_yaw world_to_image inverse world_xy :
  selects_pose hf ag pose_translation pose_yaw ->
  world_to_image_pixels_matrix (raster_size self) (pixel_size self)
    pose_translation pose_yaw (ego_center self) = inr world_to_image ->
  linalg_inv world_to_image = inr inverse ->
  transform_point (raster_center self) inverse = inr world_xy ->
  (List.length pose_translation < 3)%nat ->
  run (rasterize hf ha ag) self = (inl IndexError, self).
Proof.
  intros Hpose Hw Hi Hxy Hlen.
  pose proof (getitem_2_short _ Hlen) as Hz.
  unfold rasterize, raster_center, np_append in *.
  destruct Hpose as [frame older ego_yaw Hyaw|frame older agent elevation Hel];
    simpl; rewrite ?Hyaw, ?Hel; simpl;
    rewrite Hw; simpl; rewrite Hi; simpl; rewrite Hxy; simpl;
    rewrite Hz; reflexivity.
Qed.

(** ** What [rasterize] reads *)

(** Only the first frame of the history is read: the older frames, like
    the agents of the history, change nothing. *)
Theorem rasterize_reads_first_frame self frame older1 older2 ha1 ha2 ag :
  run (rasterize (frame :: older1) ha1 ag) self
  = run (rasterize (frame :: older2) ha2 ag) self.
Proof. destruct ag as [agent|]; reflexivity. Qed.

(** With an agent, the frame counts through the last component of its ego
    translation only: the position of the ego in the plane and its rotation
    are not read. *)
Theorem rasterize_agent_reads_elevation self frame1 frame2 older1 older2 ha
  agent :
  getitem (ego_translation frame1) (-1) = getitem (ego_translation frame2) (-1) ->
  run (rasterize (frame1 :: older1) ha (Some agent)) self
  = run (rasterize (frame2 :: older2) ha (Some agent)) self.
Proof.
  intros Hz. unfold rasterize. simpl. rewrite Hz. reflexivity.
Qed.

(** The outcome of a call does not depend on the calls made before it on
    the same object. *)
Theorem rasterize_after_calls self calls hf ha ag :
  run (rasterize hf ha ag) (after_calls self calls)
  = run (rasterize hf ha ag) self.
Proof. rewrite after_calls_same. reflexivity. Qed.

(** ** The image returned *)

Lemma shape_map_image (A B : Type) (f : A -> B) (im : image A) :
  shape (map_image f im) = shape im.
Proof.
  unfold shape, map_image. rewrite map_map.
  apply map_ext. intros row. rewrite map_map.
  apply map_ext. intros pixel. apply length_map.
Qed.

(** The image returned has the rows, the columns and the channels of the
    crop of the primitive, the rows in the opposite order. *)
Theorem rasterize_shape self hf ha ag out :
  fst (run (rasterize hf ha ag) self) = inr out ->
  exists center rotation crop,
    get_sat_image_crop_scaled (map_im self) (raster_size self) center
      rotation (pixel_size self) (map_pixel_scale self)
      (interpolation self) = inr crop /\
    shape out = rev (shape crop) /\
    List.length out = List.length crop.
Proof.
  intros H.
  destruct (rasterize_returns_inv _ _ _ _ H)
    as (_ & y & _ & _ & _ & _ & c & crop & _ & _ & _ & _ & _ & _ & Hcrop & ->).
  exists c, (scalar_neg y), crop. split; [exact Hcrop|].
  unfold normalize, flip_rows. split.
  - rewrite shape_map_image. unfold shape. apply map_rev.
  - unfold map_image. rewrite length_map. apply length_rev.
Qed.

(** [to_rgb] of the image returned is the crop of the primitive with its
    rows in the opposite order, value for value: the normalisation loses
    nothing. *)
Theorem to_rgb_of_rasterize self hf ha ag out :
  fst (run (rasterize hf ha ag) self) = inr out ->
  exists center rotation crop,
    get_sat_image_crop_scaled (map_im self) (raster_size self) center
      rotation (pixel_size self) (map_pixel_scale self)
      (interpolation self) = inr crop /\
    run (to_rgb (float32_array out)) self = (inr (rev crop), self).
Proof.
  intros H.
  destruct (rasterize_returns_inv _ _ _ _ H)
    as (_ & y & _ & _ & _ & _ & c & crop & _ & _ & _ & _ & _ & _ & Hcrop & ->).
  exists c, (scalar_neg y), crop. split; [exact Hcrop|].
  unfold to_rgb, normalize, flip_rows, float32_array. simpl.
  rewrite map_image_compose.
  do 2 f_equal. apply map_image_id. exact denormalized.
Qed.

(** ** The normalisation of the values *)

(** Two 8-bit images with the same normalised image are the same image. *)
Theorem normalize_injective (im1 im2 : u8image) :
  normalize im1 = normalize im2 -> im1 = im2.
Proof.
  intros H.
  apply (f_equal (map_image (fun x => u8_of_float (f32_mul x f32_255)))) in H.
  unfold normalize in H.
  rewrite !map_image_compose, !(map_image_id _ denormalized) in H.
  exact H.
Qed.

Lemma in_all_u8 (v : byte) : In v all_u8.
Proof.
  unfold all_u8. apply in_map_iff.
  exists (Z.to_nat (u8_to_Z v)). split.
  - destruct v; reflexivity.
  - apply in_seq. pose proof (Byte.to_N_bounded v). unfold u8_to_Z. lia.
Qed.

Lemma normalized_table_ordered :
  forallb
    (fun p =>
       forallb
         (fun q =>
            Bool.eqb (SFleb (snd p) (snd q))
                     (u8_to_Z (fst p) <=? u8_to_Z (fst q))
            && Bool.eqb (SFltb (snd p) (snd q))
                        (u8_to_Z (fst p) <? u8_to_Z (fst q)))
         normalized_table)
    normalized_table = true.
Proof. vm_compute. reflexivity. Qed.

(** The normalisation keeps the order of the 8-bit values, strictly: a
    brighter value of the crop is a larger value of the image returned. *)
Theorem normalize_keeps_order (v w : byte) :
  SFleb (f32_div (f32_of_u8 v) f32_255) (f32_div (f32_of_u8 w) f32_255)
  = (u8_to_Z v <=? u8_to_Z w) /\
  SFltb (f32_div (f32_of_u8 v) f32_255) (f32_div (f32_of_u8 w) f32_255)
  = (u8_to_Z v <? u8_to_Z w).
Proof.
  pose proof normalized_table_ordered as H.
  rewrite forallb_forall in H.
  assert (Hin : forall u, In (u, f32_div (f32_of_u8 u) f32_255) normalized_table).
  { intros u. unfold normalized_table.
    apply (in_map (fun v => (v, f32_div (f32_of_u8 v) f32_255))), in_all_u8. }
  specialize (H _ (Hin v)). rewrite forallb_forall in H.
  specialize (H _ (Hin w)). cbn [fst snd] in H.
  apply andb_true_iff in H. destruct H as [Hle Hlt].
  split; apply eqb_prop; assumption.
Qed.

End Rasterizer.

(* ===================================================================== *)
(** * Runs on concrete inputs *)
(* ===================================================================== *)

(** ** The loader (C8) *)

Lemma splitext_example :
  Loader.splitext "maps/my_satellite_image.png"
  = ("maps/my_satellite_image"%string, ".png"%string)
  /\ Loader.splitext "maps.d/.hidden" = ("maps.d/.hidden"%string, EmptyString)
  /\ Loader.splitext "a/b.tar.gz" = ("a/b.tar"%string, ".gz"%string).
Proof. repeat split. Qed.

(** When the keys resolve and [cv2.imread] returns [None], the subscript of
    line 33 raises before the test of line 34 is reached. *)
Lemma load_undecodable_image (dict : Type) imread py_open
  (json_load : string -> result dict) image_key data_manager path meta_path :
  Loader.require data_manager image_key = inr path ->
  Loader.require data_manager
    (fst (Loader.splitext image_key) ++ ".json")%string = inr meta_path ->
  imread path = None ->
  Loader._load_image_and_metadata imread py_open json_load
    image_key data_manager = inl TypeError.
Proof.
  intros Hp Hm Him. unfold Loader._load_image_and_metadata. simpl.
  rewrite Hp, Hm, Him. reflexivity.
Qed.

(** The test of line 34 never holds: the loader raises [FileNotFoundError]
    only when a collaborator does. *)
Lemma load_not_found_inv (dict : Type) imread py_open
  (json_load : string -> result dict) image_key data_manager :
  Loader._load_image_and_metadata imread py_open json_load
    image_key data_manager = inl FileNotFoundError ->
  Loader.require data_manager image_key = inl FileNotFoundError \/
  Loader.require data_manager
    (fst (Loader.splitext image_key) ++ ".json")%string
    = inl FileNotFoundError \/
  (exists path, py_open path = inl FileNotFoundError) \/
  (exists text, json_load text = inl FileNotFoundError).
Proof.
  unfold Loader._load_image_and_metadata. simpl.
  destruct (Loader.require data_manager image_key) as [e|path];
    [intros [= ->]; left; reflexivity|].
  destruct (Loader.require data_manager _) as [e|meta_path];
    [intros [= ->]; right; left; reflexivity|].
  destruct (imread path) as [im|]; simpl; [|discriminate].
  destruct (py_open meta_path) as [e|text] eqn:Ho;
    [intros [= ->]; right; right; left; exists meta_path; exact Ho|].
  destruct (json_load text) as [e|metadata] eqn:Hj; [|discriminate].
  intros [= ->]. right; right; right. exists text. exact Hj.
Qed.

(** When every step succeeds, the loader returns the image with its
    channels reversed and the metadata read at the key with [.json]. *)
Lemma load_returns (dict : Type) imread py_open
  (json_load : string -> result dict) image_key data_manager
  path meta_path im text metadata :
  Loader.require data_manager image_key = inr path ->
  Loader.require data_manager
    (fst (Loader.splitext image_key) ++ ".json")%string = inr meta_path ->
  imread path = Some im ->
  py_open meta_path = inr text ->
  json_load text = inr metadata ->
  Loader._load_image_and_metadata imread py_open json_load
    image_key data_manager = inr (map (map (@rev byte)) im, metadata).
Proof.
  intros Hp Hm Him Ho Hj. unfold Loader._load_image_and_metadata. simpl.
  rewrite Hp, Hm, Him. simpl. rewrite Ho, Hj. reflexivity.
Qed.

(** C8. The image file and its metadata file are both in the store, and
    the image cannot be decoded: the loader raises [TypeError], not
    [FileNotFoundError].  The image is fine and the metadata is not valid
    JSON: the loader raises [JSONDecodeError], not [FileNotFoundError]. *)
Theorem load_invalid_asset_not_FileNotFoundError :
  let store := Loader.local_data_manager ["maps/sat.png"; "maps/sat.json"]%string in
  Loader._load_image_and_metadata Loader.imread_corrupt Loader.open_any
    Loader.json_load_ok "maps/sat.png" store = inl TypeError /\
  Loader._load_image_and_metadata Loader.imread_pixel Loader.open_any
    Loader.json_load_invalid "maps/sat.png" store = inl JSONDecodeError /\
  Loader._load_image_and_metadata Loader.imread_pixel Loader.open_any
    Loader.json_load_ok "maps/sat.png" store
  = inr ([[[x03; x02; x01]]], []) /\
  Loader._load_image_and_metadata Loader.imread_pixel Loader.open_any
    Loader.json_load_ok "maps/sat.png" (Loader.local_data_manager ["maps/sat.png"%string])
  = inl FileNotFoundError.
Proof. repeat split. Qed.

(** ** The rasterizer on the stand-ins *)

Local Abbreviation demo_rasterize :=
  (rasterize Demo.rotation33_as_yaw Demo.world_to_image_pixels_matrix
     Demo.transform_point Demo.linalg_inv Demo.get_sat_image_crop_scaled).

Lemma rasterize_pose_witness :
  exists world_to_image,
    Demo.world_to_image_pixels_matrix (2, 2) (pixel_size Demo.engine)
      [f64_of_Z 103; f64_of_Z 198; f64_of_Z 10] (float32_scalar f32_half)
      (ego_center Demo.engine) = inr world_to_image.
Proof.
  edestruct (@rasterize_pose Demo.rotation33_as_yaw
               Demo.world_to_image_pixels_matrix Demo.transform_point
               Demo.linalg_inv Demo.get_sat_image_crop_scaled
               Demo.engine [Demo.frame0] [] (Some Demo.agent1))
    as (frame & older & t & y & w & Hhf & Hpose & Hw).
  - vm_compute. reflexivity.
  - injection Hhf as <- <-.
    destruct Hpose as (elevation & Hel & -> & -> & _).
    vm_compute in Hel. injection Hel as <-.
    exists w. exact Hw.
Defined.

Lemma rasterize_crop_center_witness :
  exists center rotation crop,
    Demo.get_sat_image_crop_scaled (map_im Demo.engine) (2, 2) center
      rotation (pixel_size Demo.engine) (map_pixel_scale Demo.engine)
      INTER_LINEAR = inr crop /\
    fst (run (demo_rasterize [Demo.frame0] [] None) Demo.engine)
    = inr (normalize (flip_rows crop)).
Proof.
  edestruct (@rasterize_crop_center Demo.rotation33_as_yaw
               Demo.world_to_image_pixels_matrix Demo.transform_point
               Demo.linalg_inv Demo.get_sat_image_crop_scaled
               Demo.engine [Demo.frame0] [] None)
    as (t & y & w & i & xy & z & c & _ & _ & _ & _ & _ & _ & r & crop
        & Hcrop & Hout).
  - vm_compute. reflexivity.
  - exists c, r, crop. split; [exact Hcrop|].
    rewrite <- Hout. vm_compute. reflexivity.
Defined.

Lemma rasterize_crop_arguments_witness :
  fst (run (demo_rasterize [Demo.frame0] [] (Some Demo.agent1)) Demo.engine) =
  match Demo.get_sat_image_crop_scaled Demo.sat_image (2, 2)
          [f64_of_Z 104; f64_of_Z 199; f64_of_Z 10]
          (scalar_neg (float32_scalar f32_half))
          [f64_half; f64_half] Demo.f64_one INTER_LINEAR with
  | inl e => inl e
  | inr crop => inr (normalize (flip_rows crop))
  end.
Proof.
  apply (@rasterize_crop_arguments Demo.rotation33_as_yaw
           Demo.world_to_image_pixels_matrix Demo.transform_point
           Demo.linalg_inv Demo.get_sat_image_crop_scaled
           Demo.engine [Demo.frame0] [] (Some Demo.agent1)
           (centroid Demo.agent1 ++ [f64_of_Z 10]) (float32_scalar f32_half)
           [[Demo.f64_one; Demo.f64_zero; f64_neg (f64_of_Z 103)];
            [Demo.f64_zero; Demo.f64_one; f64_neg (f64_of_Z 198)];
            [Demo.f64_zero; Demo.f64_zero; Demo.f64_one]]
           [[Demo.f64_one; Demo.f64_zero; f64_of_Z 103];
            [Demo.f64_zero; Demo.f64_one; f64_of_Z 198];
            [Demo.f64_zero; Demo.f64_zero; Demo.f64_one]]
           [f64_of_Z 104; f64_of_Z 199] (f64_of_Z 10)
           [f64_of_Z 104; f64_of_Z 199; f64_of_Z 10]).
  - apply (pose_of_agent Demo.rotation33_as_yaw Demo.frame0 [] Demo.agent1).
    vm_compute. reflexivity.
  - vm_compute. reflexivity.
  - vm_compute. reflexivity.
  - vm_compute. reflexivity.
  - vm_compute. reflexivity.
  - vm_compute. reflexivity.
Defined.

Lemma rasterize_flips_then_normalizes_witness :
  exists crop,
    fst (run (demo_rasterize [Demo.frame0] [] None) Demo.engine)
    = inr (map_image (fun v => f32_div (f32_of_u8 v) f32_255) (rev crop)) /\
    Forall_image (fun x => in_unit_interval x = true)
      (map_image (fun v => f32_div (f32_of_u8 v) f32_255) (rev crop)).
Proof.
  edestruct (@rasterize_flips_then_normalizes Demo.rotation33_as_yaw
               Demo.world_to_image_pixels_matrix Demo.transform_point
               Demo.linalg_inv Demo.get_sat_image_crop_scaled
               Demo.engine [Demo.frame0] [] None)
    as (c & r & crop & _ & Hout & Hunit).
  - vm_compute. reflexivity.
  - exists crop. rewrite <- Hout. split; [vm_compute; reflexivity|exact Hunit].
Defined.

Lemma init_map_pixel_scale_witness :
  __init__ Demo.linalg_norm (2, 2) [f64_half; f64_half]
    [f64_mul f64_half f64_half; f64_half] Demo.sat_image Demo.identity44 None
  = inr Demo.engine /\
  forall calls,
    map_pixel_scale
      (after_calls Demo.rotation33_as_yaw Demo.world_to_image_pixels_matrix
         Demo.transform_point Demo.linalg_inv Demo.get_sat_image_crop_scaled
         Demo.engine calls) = Demo.f64_one.
Proof.
  assert (H : __init__ Demo.linalg_norm (2, 2) [f64_half; f64_half]
                [f64_mul f64_half f64_half; f64_half] Demo.sat_image
                Demo.identity44 None = inr Demo.engine)
    by (vm_compute; reflexivity).
  split; [exact H|].
  destruct (@init_map_pixel_scale Demo.rotation33_as_yaw
              Demo.world_to_image_pixels_matrix Demo.transform_point
              Demo.linalg_inv Demo.linalg_norm Demo.get_sat_image_crop_scaled
              _ _ _ _ _ _ _ H)
    as (row0 & row1 & _ & _ & _ & _ & Hcalls).
  intros calls. exact (proj1 (Hcalls calls)).
Defined.


(** ** [to_rgb] does not round (C6) *)

(** The claim C6 as it is stated fails on the 1x1 [float32] image of the
    value 0.5: [0.5 * 255 = 127.5], which [to_rgb] cuts to 127 and [round]
    takes to 128. *)
Lemma to_rgb_is_not_round :
  ~ (forall self in_im,
       Forall_image
         (fun x => has_dtype (dtype in_im) x = true /\
                   unit_interval (dtype in_im) x = true)
         (data in_im) ->
       fst (run (to_rgb in_im) self) = inr (round_to_u8 in_im)).
Proof.
  intros H.
  specialize (H Demo.engine (float32_array [[[f32_half]]])).
  assert (Hunit : Forall_image
                    (fun x => has_dtype Float32 x = true /\
                              unit_interval Float32 x = true)
                    [[[f32_half]]])
    by (repeat constructor).
  specialize (H Hunit). vm_compute in H. discriminate H.
Qed.

(** On the [float64] image of the values [1 - 2 ^ -30] and 0.5 the
    products are [255 - 255 * 2 ^ -30] and 127.5, computed in [float64]. *)
Lemma to_rgb_truncates_witness :
  fst (run (to_rgb {| dtype := Float64;
                      data := [[[binary_normalize 53 1024 1073741823 (-30) false;
                                 f64_half]]] |}) Demo.engine)
  = inr [[[xfe; x7f]]] /\
  map_image u8_to_Z
    (truncate_to_u8 {| dtype := Float64;
                       data := [[[binary_normalize 53 1024 1073741823 (-30) false;
                                  f64_half]]] |})
  = [[[254; 127]]].
Proof.
  destruct (@to_rgb_truncates Demo.engine
              {| dtype := Float64;
                 data := [[[binary_normalize 53 1024 1073741823 (-30) false;
                            f64_half]]] |})
    as (Hout & Hz & _).
  - repeat constructor.
  - split; [exact Hout|exact Hz].
Defined.

Lemma to_rgb_half :
  fst (run (to_rgb (float32_array [[[f32_half]]])) Demo.engine)
  = inr [[[x7f]]] /\
  round_to_u8 (float32_array [[[f32_half]]]) = [[[x80]]] /\
  fst (run (to_rgb {| dtype := Float64; data := [[[f64_half]]] |}) Demo.engine)
  = inr [[[x7f]]] /\
  round_to_u8 {| dtype := Float64; data := [[[f64_half]]] |} = [[[x80]]].
Proof. repeat split; vm_compute; reflexivity. Qed.

(** ** The dtype of the yaw (C7) *)


(** The two yaws are equal and of two dtypes. *)
Lemma agent_turned_yaw :
  Demo.rotation33_as_yaw (ego_rotation Demo.frame_turned)
  = inr (float64_scalar (binary_normalize 53 1024 79 (-5) false)) /\
  yaw Demo.agent_turned
  = float32_scalar (binary_normalize 24 128 79 (-5) false) /\
  scalar_eqb (yaw Demo.agent_turned)
    (float64_scalar (binary_normalize 53 1024 79 (-5) false)) = true /\
  yaw Demo.agent_turned
  <> float64_scalar (binary_normalize 53 1024 79 (-5) false).
Proof.
  repeat split; try (vm_compute; reflexivity).
  intros H. discriminate H.
Qed.

(* ===================================================================== *)
(** * Further properties of the loader *)
(* ===================================================================== *)

Lemma load_unresolved_key_aux (dict : Type) imread py_open
  (json_load : string -> result dict) image_key data_manager path e :
  Loader.require data_manager image_key = inr path ->
  Loader.require data_manager
    (fst (Loader.splitext image_key) ++ ".json")%string = inl e ->
  Loader._load_image_and_metadata imread py_open json_load
    image_key data_manager = inl e.
Proof.
  intros Himage Hmeta. unfold Loader._load_image_and_metadata. simpl.
  rewrite Himage, Hmeta. reflexivity.
Qed.

(** A key that the data manager does not resolve stops the loader with the
    exception of the data manager, whatever the files hold: the image key
    is resolved first, then the metadata key, and no file is read before
    both are. *)
Theorem load_unresolved_key (dict : Type) imread py_open
  (json_load : string -> result dict) image_key data_manager e :
  Loader.require data_manager image_key = inl e \/
  (exists path,
      Loader.require data_manager image_key = inr path /\
      Loader.require data_manager
        (fst (Loader.splitext image_key) ++ ".json")%string = inl e) ->
  Loader._load_image_and_metadata imread py_open json_load
    image_key data_manager = inl e.
Proof.
  intros [Himage|(path & Himage & Hmeta)].
  - unfold Loader._load_image_and_metadata. simpl.
    rewrite Himage. reflexivity.
  - exact (load_unresolved_key_aux _ _ _ _ _ Himage Hmeta).
Qed.

(** ** The metadata key *)

Lemma append_empty_r (s : string) : (s ++ "")%string = s.
Proof. induction s as [|c s IH]; simpl; [reflexivity|now rewrite IH]. Qed.

Lemma substring_0_all (s : string) :
  forall m, (String.length s <= m)%nat -> substring 0 m s = s.
Proof.
  induction s as [|c s IH]; intros [|m] Hlen; simpl in *;
    try reflexivity; try lia.
  rewrite IH by lia. reflexivity.
Qed.

Lemma substring_split (s : string) :
  forall n m, (String.length s <= n + m)%nat ->
              (substring 0 n s ++ substring n m s)%string = s.
Proof.
  induction s as [|c s IH]; intros n m Hlen.
  - destruct n, m; reflexivity.
  - destruct n as [|n].
    + change (substring 0 0 (String c s)) with EmptyString.
      apply substring_0_all. exact Hlen.
    + simpl. rewrite IH by (simpl in Hlen; lia). reflexivity.
Qed.

(** [rfind] returns [-1] or the index of an occurrence of the
    character. *)
Lemma rfind_from_spec (c : ascii) (s : string) :
  forall i last,
    0 <= i ->
    Loader.rfind_from c s i last = last \/
    (i <= Loader.rfind_from c s i last /\
     get (Z.to_nat (Loader.rfind_from c s i last - i)) s = Some c).
Proof.
  induction s as [|a s IH]; intros i last Hi; simpl.
  - now left.
  - destruct (IH (i + 1) (if Ascii.eqb a c then i else last) ltac:(lia))
      as [Hsame|[Hge Hget]].
    + rewrite Hsame. destruct (Ascii.eqb_spec a c) as [->|_].
      * right. split; [lia|]. rewrite Z.sub_diag. reflexivity.
      * now left.
    + right. split; [lia|].
      replace (Z.to_nat (Loader.rfind_from c s (i + 1)
                           (if Ascii.eqb a c then i else last) - i))
        with (S (Z.to_nat (Loader.rfind_from c s (i + 1)
                              (if Ascii.eqb a c then i else last) - (i + 1))))
        by lia.
      exact Hget.
Qed.

Lemma substring_from_get (s : string) :
  forall n m c, get n s = Some c ->
    exists rest, substring n (S m) s = String c rest.
Proof.
  induction s as [|a s IH]; intros n m c Hget.
  - destruct n; discriminate Hget.
  - destruct n as [|n]; simpl in *.
    + injection Hget as ->. now eexists.
    + apply IH. exact Hget.
Qed.

(** [(root, ext) = splitext(p)] splits [p]: [p = root + ext], and [ext] is
    empty or begins with a dot. *)
Lemma splitext_splits (p : string) :
  (fst (Loader.splitext p) ++ snd (Loader.splitext p))%string = p /\
  (snd (Loader.splitext p) = EmptyString \/
   exists rest, snd (Loader.splitext p) = String "." rest).
Proof.
  unfold Loader.splitext.
  destruct (Loader.rfind "/" p <? Loader.rfind "." p) eqn:Hlt;
    [|simpl; split; [apply append_empty_r|now left]].
  apply Z.ltb_lt in Hlt.
  assert (Hloop : forall k,
             Loader.splitext_loop p (Loader.rfind "." p) k = (p, EmptyString) \/
             Loader.splitext_loop p (Loader.rfind "." p) k
             = (Loader.slice p 0 (Loader.rfind "." p),
                Loader.slice_from p (Loader.rfind "." p))).
  { induction k as [|k IH]; simpl; [now left|].
    destruct (negb _); [now right|exact IH]. }
  destruct (Hloop (Z.to_nat (Loader.rfind "." p - (Loader.rfind "/" p + 1))))
    as [->| ->]; simpl.
  - split; [apply append_empty_r|now left].
  - assert (Hsep : -1 <= Loader.rfind "/" p).
    { unfold Loader.rfind.
      destruct (@rfind_from_spec "/" p 0 (-1) ltac:(lia)) as [->|[? _]]; lia. }
    unfold Loader.slice, Loader.slice_from. rewrite Z.sub_0_r. split.
    + apply substring_split. lia.
    + right. unfold Loader.rfind in *.
      destruct (@rfind_from_spec "." p 0 (-1) ltac:(lia)) as [Heq|[_ Hget]];
        [lia|].
      rewrite Z.sub_0_r in Hget.
      destruct p as [|a p']; [destruct (Z.to_nat _); discriminate Hget|].
      apply substring_from_get. exact Hget.
Qed.

(** The metadata key is the image key with a suffix replaced by [.json];
    the suffix is empty or begins with a dot.  It is under this key that
    the loader asks the data manager for the metadata. *)
Theorem load_metadata_key (dict : Type) imread py_open
  (json_load : string -> result dict) image_key :
  exists root ext,
    image_key = (root ++ ext)%string /\
    (ext = EmptyString \/ exists rest, ext = String "." rest) /\
    forall data_manager path e,
      Loader.require data_manager image_key = inr path ->
      Loader.require data_manager (root ++ ".json")%string = inl e ->
      Loader._load_image_and_metadata imread py_open json_load
        image_key data_manager = inl e.
Proof.
  exists (fst (Loader.splitext image_key)), (snd (Loader.splitext image_key)).
  destruct (splitext_splits image_key) as [Hsplit Hext].
  split; [now symmetry|]. split; [exact Hext|].
  intros data_manager path e Himage Hmeta.
  apply load_unresolved_key_aux with (path := path); assumption.
Qed.

(* ===================================================================== *)
(** * Further runs on concrete inputs *)
(* ===================================================================== *)

(** ** The loader *)

Lemma load_undecodable_image_witness :
  Loader._load_image_and_metadata Loader.imread_corrupt Loader.open_any
    Loader.json_load_ok "maps/sat.png"
    (Loader.local_data_manager ["maps/sat.png"; "maps/sat.json"]%string)
  = inl TypeError.
Proof.
  apply (@load_undecodable_image _ Loader.imread_corrupt Loader.open_any
           Loader.json_load_ok "maps/sat.png"
           (Loader.local_data_manager ["maps/sat.png"; "maps/sat.json"]%string)
           "/data/maps/sat.png" "/data/maps/sat.json");
    reflexivity.
Defined.

Lemma load_not_found_inv_witness :
  Loader.require (Loader.local_data_manager ["maps/sat.png"%string])
    "maps/sat.png" = inl FileNotFoundError \/
  Loader.require (Loader.local_data_manager ["maps/sat.png"%string])
    (fst (Loader.splitext "maps/sat.png") ++ ".json")%string
  = inl FileNotFoundError \/
  (exists path, Loader.open_any path = inl FileNotFoundError) \/
  (exists text, Loader.json_load_ok text = inl FileNotFoundError).
Proof.
  apply (@load_not_found_inv _ Loader.imread_pixel Loader.open_any
           Loader.json_load_ok "maps/sat.png"
           (Loader.local_data_manager ["maps/sat.png"%string])).
  reflexivity.
Defined.

Lemma load_returns_witness :
  Loader._load_image_and_metadata Loader.imread_pixel Loader.open_any
    Loader.json_load_ok "maps/sat.png"
    (Loader.local_data_manager ["maps/sat.png"; "maps/sat.json"]%string)
  = inr (map (map (@rev byte)) [[[x01; x02; x03]]], []).
Proof.
  apply (@load_returns _ Loader.imread_pixel Loader.open_any
           Loader.json_load_ok "maps/sat.png"
           (Loader.local_data_manager ["maps/sat.png"; "maps/sat.json"]%string)
           "/data/maps/sat.png" "/data/maps/sat.json"
           [[[x01; x02; x03]]] "{}"%string []);
    reflexivity.
Defined.

Lemma load_unresolved_key_witness :
  Loader._load_image_and_metadata Loader.imread_corrupt Loader.open_any
    Loader.json_load_ok "maps/sat.png"
    (Loader.local_data_manager ["maps/sat.png"%string])
  = inl FileNotFoundError.
Proof.
  apply (@load_unresolved_key _ Loader.imread_corrupt Loader.open_any
           Loader.json_load_ok "maps/sat.png"
           (Loader.local_data_manager ["maps/sat.png"%string])
           FileNotFoundError).
  right. exists "/data/maps/sat.png"%string. split; reflexivity.
Defined.

(** ** The constructor *)

Lemma init_scale_reads_rotation_block_witness :
  map_pixel_scale Demo.engine = Demo.f64_one.
Proof.
  apply (@init_scale_reads_rotation_block Demo.linalg_norm
           (2, 2) [f64_half; f64_half] [f64_mul f64_half f64_half; f64_half]
           Demo.sat_image None
           (5, 7) [] [] [] (Some 0)
           Demo.identity44
           [[Demo.f64_one; Demo.f64_zero; Demo.f64_zero; f64_of_Z 40];
            [Demo.f64_zero; Demo.f64_one; Demo.f64_zero; f64_of_Z (-3)]]
           Demo.engine
           {| raster_size := (5, 7); pixel_size := []; ego_center := [];
              map_im := [];
              map_to_sat :=
                [[Demo.f64_one; Demo.f64_zero; Demo.f64_zero; f64_of_Z 40];
                 [Demo.f64_zero; Demo.f64_one; Demo.f64_zero; f64_of_Z (-3)]];
              interpolation := 0;
              map_pixel_scale := Demo.f64_one |});
    vm_compute; reflexivity.
Defined.

Lemma init_degenerate_calibration_witness :
  exists self,
    __init__ Demo.linalg_norm (2, 2) [f64_half; f64_half] [] Demo.sat_image
      [[Demo.f64_zero; Demo.f64_zero; Demo.f64_zero; f64_of_Z 5];
       [Demo.f64_zero; Demo.f64_zero; Demo.f64_zero; f64_of_Z 6]] None
    = inr self /\
    map_pixel_scale self = S754_infinity false.
Proof.
  apply (@init_degenerate_calibration Demo.linalg_norm
           (2, 2) [f64_half; f64_half] [] Demo.sat_image None
           [Demo.f64_zero; Demo.f64_zero; Demo.f64_zero; f64_of_Z 5]
           [Demo.f64_zero; Demo.f64_zero; Demo.f64_zero; f64_of_Z 6] []);
    vm_compute; reflexivity.
Defined.

(** ** [rasterize] *)

Lemma rasterize_raises_inv_witness :
  exists world_to_image,
    Demo.world_to_image_pixels_matrix (raster_size Demo.engine)
      (pixel_size Demo.engine) (ego_translation Demo.frame0)
      (float64_scalar Demo.f64_zero) (ego_center Demo.engine)
    = inr world_to_image.
Proof.
  destruct (proj1 (@rasterize_raises_inv Demo.rotation33_as_yaw
              Demo.world_to_image_pixels_matrix Demo.transform_point
              (fun _ => inl LinAlgError) Demo.get_sat_image_crop_scaled
              Demo.engine [Demo.frame0] [] None LinAlgError))
    as [Hhistory|(frame & Hframe & [[_ Hyaw]|[[[agent Hagent] _]|Hpose]])].
  - vm_compute. reflexivity.
  - discriminate Hhistory.
  - vm_compute in Hframe. injection Hframe as <-. discriminate Hyaw.
  - discriminate Hagent.
  - destruct Hpose as (t & y & Hselect & [Hw|(w & Hw & _)]).
    + inversion Hselect; subst. discriminate Hw.
    + inversion Hselect as [f o ey Hy|]; subst.
      vm_compute in Hy. injection Hy as <-.
      exists w. exact Hw.
Defined.

Lemma rasterize_singular_transform_witness :
  run (rasterize Demo.rotation33_as_yaw Demo.world_to_image_pixels_matrix
         Demo.transform_point (fun _ => inl LinAlgError)
         Demo.get_sat_image_crop_scaled [Demo.frame0] [] None) Demo.engine
  = (inl LinAlgError, Demo.engine).
Proof.
  apply (@rasterize_singular_transform Demo.rotation33_as_yaw
           Demo.world_to_image_pixels_matrix Demo.transform_point
           (fun _ => inl LinAlgError) Demo.get_sat_image_crop_scaled
           Demo.engine [Demo.frame0] [] None
           (ego_translation Demo.frame0) (float64_scalar Demo.f64_zero)
           [[Demo.f64_one; Demo.f64_zero; f64_neg (f64_of_Z 100)];
            [Demo.f64_zero; Demo.f64_one; f64_neg (f64_of_Z 200)];
            [Demo.f64_zero; Demo.f64_zero; Demo.f64_one]]).
  - apply (pose_of_ego Demo.rotation33_as_yaw Demo.frame0 []).
    vm_compute. reflexivity.
  - vm_compute. reflexivity.
  - reflexivity.
Defined.

Lemma rasterize_pose_without_elevation_witness :
  run (demo_rasterize [Demo.frame0] []
         (Some {| centroid := [f64_of_Z 103]; yaw := float32_scalar f32_half |}))
    Demo.engine
  = (inl IndexError, Demo.engine).
Proof.
  apply (@rasterize_pose_without_elevation Demo.rotation33_as_yaw
           Demo.world_to_image_pixels_matrix Demo.transform_point
           Demo.linalg_inv Demo.get_sat_image_crop_scaled
           Demo.engine [Demo.frame0] []
           (Some {| centroid := [f64_of_Z 103]; yaw := float32_scalar f32_half |})
           [f64_of_Z 103; f64_of_Z 10] (float32_scalar f32_half)
           [[Demo.f64_one; Demo.f64_zero; f64_neg (f64_of_Z 103)];
            [Demo.f64_zero; Demo.f64_one; f64_neg (f64_of_Z 10)];
            [Demo.f64_zero; Demo.f64_zero; Demo.f64_one]]
           [[Demo.f64_one; Demo.f64_zero; f64_of_Z 103];
            [Demo.f64_zero; Demo.f64_one; f64_of_Z 10];
            [Demo.f64_zero; Demo.f64_zero; Demo.f64_one]]
           [f64_of_Z 104; f64_of_Z 11]).
  - apply (pose_of_agent Demo.rotation33_as_yaw Demo.frame0 []
             {| centroid := [f64_of_Z 103]; yaw := float32_scalar f32_half |}).
    vm_compute. reflexivity.
  - vm_compute. reflexivity.
  - vm_compute. reflexivity.
  - vm_compute. reflexivity.
  - simpl. lia.
Defined.

Lemma rasterize_agent_reads_elevation_witness :
  run (demo_rasterize [Demo.frame0] [] (Some Demo.agent1)) Demo.engine
  = run (demo_rasterize
           [{| ego_translation := [f64_of_Z (-7); f64_of_Z 10];
               ego_rotation := [] |}; Demo.frame0] []
           (Some Demo.agent1)) Demo.engine.
Proof.
  apply (@rasterize_agent_reads_elevation Demo.rotation33_as_yaw
           Demo.world_to_image_pixels_matrix Demo.transform_point
           Demo.linalg_inv Demo.get_sat_image_crop_scaled
           Demo.engine Demo.frame0
           {| ego_translation := [f64_of_Z (-7); f64_of_Z 10];
              ego_rotation := [] |}
           [] [Demo.frame0] [] Demo.agent1).
  vm_compute. reflexivity.
Defined.

Lemma rasterize_shape_witness :
  exists out,
    fst (run (demo_rasterize [Demo.frame0] [] None) Demo.engine) = inr out /\
    shape out = [[3; 3]; [3; 3]]%nat.
Proof.
  edestruct (@rasterize_shape Demo.rotation33_as_yaw
               Demo.world_to_image_pixels_matrix Demo.transform_point
               Demo.linalg_inv Demo.get_sat_image_crop_scaled
               Demo.engine [Demo.frame0] [] None)
    as (c & r & crop & Hcrop & Hshape & _).
  - vm_compute. reflexivity.
  - eexists. split; [vm_compute; reflexivity|].
    rewrite Hshape. vm_compute in Hcrop. injection Hcrop as <-.
    reflexivity.
Defined.

Lemma to_rgb_of_rasterize_witness :
  exists out,
    fst (run (demo_rasterize [Demo.frame0] [] None) Demo.engine) = inr out /\
    fst (run (to_rgb (float32_array out)) Demo.engine)
    = inr [[[xfe; x7f; x40]; [x0a; x0b; x0c]];
           [[x00; x80; xff]; [x01; x02; x03]]].
Proof.
  edestruct (@to_rgb_of_rasterize Demo.rotation33_as_yaw
               Demo.world_to_image_pixels_matrix Demo.transform_point
               Demo.linalg_inv Demo.get_sat_image_crop_scaled
               Demo.engine [Demo.frame0] [] None)
    as (c & r & crop & Hcrop & Hrgb).
  - vm_compute. reflexivity.
  - eexists. split; [vm_compute; reflexivity|].
    rewrite Hrgb. vm_compute in Hcrop. injection Hcrop as <-.
    reflexivity.
Defined.

Lemma normalize_injective_witness :
  [[[x00; x80; xff]]] = [[[x00; x80; xff]]] :> u8image.
Proof.
  apply (@normalize_injective [[[x00; x80; xff]]] [[[x00; x80; xff]]]).
  reflexivity.
Defined.
